(** * Ticket-Booking-System: the booking reservation engine

    A shallow embedding of the Express route handlers of the booking
    engine (create booking, cancel booking, the read and list routes,
    admin booking status, admin showtime maintenance), of the Booking
    model with its validators and its booking-code hook, and of the movie
    context and the dashboard of the client, over an explicit model of the
    two MongoDB collections.

    Modelling conventions.
    - A string is a sequence of UTF-16 code units below 256, one
      character of a Rocq string each.
    - A JS [Date] is its time value: milliseconds since the epoch, in [Z].
      An Invalid Date (time value NaN) is [None].
    - The server's local time zone is a fixed offset [tz] (milliseconds east
      of UTC); daylight-saving changes are not modelled.
    - [Date.prototype.toDateString] is represented by the local calendar
      day number, which the returned string determines and is determined by.
    - Seat counts and quantities are integers ([isInt] validators); prices
      and amounts are rationals standing for JS numbers.  The integers
      that [parseInt] and [setHours] compute are rounded as doubles are.
    - An ObjectId of a booking is its insertion index in the collection
      (bookings are never deleted); movies are a finite map from ids.
    - [Math.random] is a tape of the values it returns during one request.
    - A document is validated against its schema when it is saved.  The
      Booking schema is applied to the whole document.  Of the Movie
      schema the model keeps the showtime paths; the movies of the store
      have passed validation, so a save of a movie is refused only where
      the request assigns a value that has no validator on the route.
    - A handler that throws answers 500 from its [catch]. *)

From Stdlib Require Import ZArith QArith Qround String Ascii List Lia.
From stdpp Require Import base option list gmap strings.

Local Open Scope string_scope.
Local Open Scope Z_scope.

(** ** JavaScript built-ins used by the handlers *)

Module JS.

(** [Array.prototype.join] on an array of strings. *)
Fixpoint join (sep : string) (l : list string) : string :=
  match l with
  | [] => ""
  | [x] => x
  | x :: xs => x +:+ sep +:+ join sep xs
  end.

(** [String.prototype.charAt]: the one-character string at [i], or the
    empty string when [i] is out of range. *)
Definition charAt (s : string) (i : Z) : string :=
  if i <? 0 then ""
  else match String.get (Z.to_nat i) s with
       | Some c => String c ""
       | None => ""
       end.

(** [String.prototype.split] with a one-character separator. *)
Fixpoint split (sep : ascii) (s : string) : list string :=
  match s with
  | EmptyString => [EmptyString]
  | String c s' =>
      if Ascii.eqb c sep then EmptyString :: split sep s'
      else match split sep s' with
           | x :: xs => String c x :: xs
           | [] => [String c EmptyString]
           end
  end.

(** White space and line terminators among the code units below 256:
    TAB, LF, VT, FF, CR, space and the no-break space. *)
Definition isWhiteSpace (c : ascii) : bool :=
  let n := nat_of_ascii c in
  (Nat.eqb n 32 || (Nat.leb 9 n && Nat.leb n 13) || Nat.eqb n 160)%bool.

Fixpoint trimStart (s : string) : string :=
  match s with
  | String c s' => if isWhiteSpace c then trimStart s' else s
  | EmptyString => s
  end.

Definition reverseString (s : string) : string :=
  string_of_list_ascii (reverse (list_ascii_of_string s)).

Definition trimEnd (s : string) : string :=
  reverseString (trimStart (reverseString s)).

(** [trim] of validator.js without a second argument: white space is
    taken off both ends. *)
Definition trim (s : string) : string := trimEnd (trimStart s).

(** Numbers.  The numbers of the handlers are integers, or are not
    finite. *)
Inductive Number :=
  | NaN
  | Infinity (negative : bool)
  | Int (n : Z).

#[global] Instance Number_eq_dec : EqDecision Number.
Proof. solve_decision. Defined.

Definition finite (x : Number) : option Z :=
  match x with
  | Int n => Some n
  | _ => None
  end.

(** The Number value of an integer: the nearest double, ties to the even
    significand of 53 bits, and an infinity from 2^1024 - 2^970 on. *)
Definition roundDouble (x : Z) : Number :=
  let a := Z.abs x in
  if a <? 2 ^ 53 then Int x
  else
    let e := Z.log2 a - 52 in
    let q := a / 2 ^ e in
    let r := a mod 2 ^ e in
    let q' := if 2 * r <? 2 ^ e then q
              else if 2 ^ e <? 2 * r then q + 1
              else if Z.even q then q else q + 1 in
    let y := q' * 2 ^ e in
    if 2 ^ 1024 <=? y then Infinity (x <? 0) else Int (Z.sgn x * y).

(** [x * y] and [x + y] on finite integers; [None]: the result is not
    finite. *)
Definition mul (x y : Z) : option Z := finite (roundDouble (x * y)).
Definition add (x y : Z) : option Z := finite (roundDouble (x + y)).

(** Value of [c] as a digit in the given radix (10 or 16). *)
Definition digitVal (radix : Z) (c : ascii) : option Z :=
  let n := Z.of_nat (nat_of_ascii c) in
  let v := if (48 <=? n) && (n <=? 57) then Some (n - 48)
           else if (97 <=? n) && (n <=? 102) then Some (n - 87)
           else if (65 <=? n) && (n <=? 70) then Some (n - 55)
           else None in
  match v with
  | Some d => if d <? radix then Some d else None
  | None => None
  end.

(** The longest prefix of digits, as a number; [acc] is [None] until a
    first digit has been read. *)
Fixpoint digits (radix : Z) (s : string) (acc : option Z) : option Z :=
  match s with
  | String c s' =>
      match digitVal radix c with
      | Some d => digits radix s' (Some (radix * default 0 acc + d))
      | None => acc
      end
  | EmptyString => acc
  end.

(** [parseInt(s)] without a radix argument: leading white space, an
    optional sign, an optional [0x] prefix, then digits; the Number value
    of the integer read (correctly rounded, as V8 does), NaN without a
    digit. *)
Definition parseInt (s : string) : Number :=
  let s := trimStart s in
  let '(sign, s) :=
    match s with
    | String "-" s' => (-1, s')
    | String "+" s' => (1, s')
    | _ => (1, s)
    end in
  let '(radix, s) :=
    match s with
    | String "0" (String "x" s') => (16, s')
    | String "0" (String "X" s') => (16, s')
    | _ => (10, s)
    end in
  match digits radix s None with
  | Some n => roundDouble (sign * n)
  | None => NaN
  end.

(** [parseInt] of a value that may be [undefined]. *)
Definition parseIntOpt (s : option string) : Number :=
  match s with
  | Some s => parseInt s
  | None => NaN
  end.

Definition msPerMinute : Z := 60000.
Definition msPerHour : Z := 3600000.
Definition msPerDay : Z := 86400000.

(** [TimeClip]: time values beyond 8.64e15 ms are NaN. *)
Definition TimeClip (t : Z) : option Z :=
  if Z.abs t <=? 8640000000000000 then Some t else None.

(** [MakeTime(hour, min, 0, 0)]; [None]: NaN. *)
Definition MakeTime (hour min : Number) : option Z :=
  h ← finite hour;
  m ← finite min;
  hms ← mul h msPerHour;
  mms ← mul m msPerMinute;
  t ← add hms mms;
  s ← add t (0 * 1000);
  add s 0.

(** [MakeDate(day, time)]. *)
Definition MakeDate (day time : Z) : option Z :=
  dms ← mul day msPerDay;
  add dms time.

Section Zone.
Variable tz : Z.

Definition LocalTime (t : Z) : Z := t + tz.
Definition UTC (t : Z) : Z := t - tz.
Definition Day (t : Z) : Z := t / msPerDay.

(** The local calendar day of [d], standing for [d.toDateString()]. *)
Definition toDateString (d : Z) : Z := Day (LocalTime d).

(** [d.setHours(h, m, 0, 0)] and the resulting time value. *)
Definition setHours (d : Z) (h m : Number) : option Z :=
  time ← MakeTime h m;
  date ← MakeDate (Day (LocalTime d)) time;
  u ← add date (- tz);
  TimeClip u.
End Zone.

End JS.

(** ** Documents (models/Movie.js, models/Booking.js) *)

Inductive Status := pending | confirmed | cancelled | completed.
Inductive PaymentMethod := credit_card | debit_card | cash | online.
Inductive PaymentStatus := pay_pending | pay_completed | pay_failed | pay_refunded.
Inductive Role := role_user | role_admin.

#[global] Instance Status_eq_dec : EqDecision Status.
Proof. solve_decision. Defined.
#[global] Instance Role_eq_dec : EqDecision Role.
Proof. solve_decision. Defined.

Record Showtime := mkShowtime {
  st_id : nat;
  st_date : Z;
  st_time : string;
  price : Q;
  totalSeats : Z;
  availableSeats : Z;
  st_isActive : bool
}.

Record Movie := mkMovie {
  title : string;
  poster : string;
  showtimes : list Showtime;
  isActive : bool
}.

Record ShowtimeRef := mkShowtimeRef {
  date : Z;
  time : string
}.

Record Booking := mkBooking {
  user : nat;
  movie : nat;
  showtime : ShowtimeRef;
  seats : list string;
  quantity : Z;
  totalAmount : Q;
  status : Status;
  paymentMethod : PaymentMethod;
  paymentStatus : PaymentStatus;
  bookingCode : string;
  notes : option string;
  cancelledAt : option Z;
  cancelledBy : option nat;
  cancellationReason : option string
}.

(** The two collections. *)
Record DB := mkDB {
  movies : gmap nat Movie;
  bookings : list Booking
}.

(** The authenticated caller ([req.user]). *)
Record User := mkUser {
  id : nat;
  role : Role
}.

(** What a handler sends: the HTTP status, the [message] field and, on
    booking routes, the booking of the body. *)
Record Response := mkResponse {
  res_status : Z;
  message : string;
  res_booking : option Booking
}.

Definition respond (code : Z) (msg : string) : Response :=
  mkResponse code msg None.

(** Field setters (assignments to a document's path). *)
Definition set_availableSeats (n : Z) (st : Showtime) : Showtime :=
  mkShowtime (st_id st) (st_date st) (st_time st) (price st) (totalSeats st) n
             (st_isActive st).

Definition set_showtimes (l : list Showtime) (m : Movie) : Movie :=
  mkMovie (title m) (poster m) l (isActive m).

Definition set_movies (ms : gmap nat Movie) (db : DB) : DB :=
  mkDB ms (bookings db).

Definition set_bookings (bs : list Booking) (db : DB) : DB :=
  mkDB (movies db) bs.

(** ** Writes to the store

    A handler reads the collections and issues writes in program order;
    [commit] applies them.  [InsertBooking] is [Booking.create],
    [SaveBooking] is [booking.save()] on a loaded document and [SaveMovie]
    is [movie.save()]. *)

Inductive Write :=
  | InsertBooking (b : Booking)
  | SaveBooking (i : nat) (b : Booking)
  | SaveMovie (i : nat) (m : Movie).

Definition applyWrite (db : DB) (w : Write) : DB :=
  match w with
  | InsertBooking b => set_bookings (bookings db ++ [b]) db
  | SaveBooking i b => set_bookings (<[i := b]> (bookings db)) db
  | SaveMovie i m => set_movies (<[i := m]> (movies db)) db
  end.

Definition commit (ws : list Write) (db : DB) : DB :=
  foldl applyWrite db ws.

(** ** Booking code (pre-save hook of models/Booking.js) *)

Definition chars : string := "ABCDEFGHIJKLMNOPQRSTUVWXYZ0123456789".

(** The [for] loop of [generateCode], [n] iterations left; each iteration
    takes one value of [Math.random()] from the tape. *)
Fixpoint generateCode_loop (n : nat) (result : string) (tape : list Q)
  : option (string * list Q) :=
  match n with
  | O => Some (result, tape)
  | S n' =>
      match tape with
      | [] => None
      | r :: tape' =>
          generateCode_loop n'
            (result +:+ JS.charAt chars
               (Qfloor (r * inject_Z (Z.of_nat (String.length chars)))))
            tape'
      end
  end.

Definition generateCode (tape : list Q) : option (string * list Q) :=
  generateCode_loop 8 "" tape.

(** [Booking.findOne({ bookingCode })]. *)
Definition findOne_bookingCode (bs : list Booking) (code : string)
  : option Booking :=
  snd <$> list_find (λ b, bookingCode b = code) bs.

(** The [while (!isUnique)] loop.  [None]: the loop has not finished on
    the values of the tape. *)
Fixpoint uniqueCode_loop (fuel : nat) (bs : list Booking) (tape : list Q)
  : option string :=
  match fuel with
  | O => None
  | S fuel' =>
      match generateCode tape with
      | None => None
      | Some (code, tape') =>
          match findOne_bookingCode bs code with
          | None => Some code
          | Some _ => uniqueCode_loop fuel' bs tape'
          end
      end
  end.

(** The hook on a new document: the code it assigns.  On a document that
    is not new the hook returns at once, so a [SaveBooking] leaves the
    code as it is. *)
Definition preSave (tape : list Q) (bs : list Booking) : option string :=
  uniqueCode_loop (length tape) bs tape.

(** ** Validation and creation of a booking (models/Booking.js) *)

(** [maxlength] of a String path of a schema, and [isLength({ max })] of
    a validator chain: an absent value passes. *)
Definition lengthAtMost (n : nat) (s : option string) : bool :=
  match s with
  | Some s => (String.length s <=? n)%nat
  | None => true
  end.

(** The validators of the Booking schema on a document.  [user], [movie]
    and [showtime.date] are present in every document of the model; an
    absent [bookingCode] is the empty string, which [required] refuses as
    it refuses [undefined]. *)
Definition validateBooking (b : Booking) : bool :=
  bool_decide (time (showtime b) ≠ "")
  && bool_decide (seats b ≠ [])
  && (1 <=? quantity b)
  && Qle_bool 0 (totalAmount b)
  && bool_decide (bookingCode b ≠ "")
  && lengthAtMost 500 (notes b)
  && lengthAtMost 200 (cancellationReason b).

Definition set_bookingCode (code : string) (b : Booking) : Booking :=
  mkBooking (user b) (movie b) (showtime b) (seats b) (quantity b)
    (totalAmount b) (status b) (paymentMethod b) (paymentStatus b)
    code (notes b) (cancelledAt b) (cancelledBy b) (cancellationReason b).

(** What [Booking.create] comes to: the document is refused by
    validation, or stored. *)
Inductive Created :=
  | Rejected
  | Stored (b : Booking).

(** [Booking.create(doc)]: the document is validated, then the
    pre('save') hook runs, then the document is inserted.  Validation is
    the first of the pre('save') hooks of a schema, so it reads the
    document as the caller built it, before the hook has assigned a
    code.  [None]: the hook is still in its loop. *)
Definition Booking_create (tape : list Q) (bs : list Booking) (doc : Booking)
  : option Created :=
  if negb (validateBooking doc) then Some Rejected
  else code ← preSave tape bs; Some (Stored (set_bookingCode code doc)).

(** ** Requests *)

Record CreateBookingReq := mkCreateBookingReq {
  movieId : nat;
  showtimeDate : Z;
  showtimeTime : string;
  req_seats : list string;
  req_quantity : Z;
  req_paymentMethod : PaymentMethod;
  req_notes : option string
}.

(** A key of the body of the showtime update with its value: the paths of
    the showtime schema.  Only [date], [time], [price], [totalSeats] and
    [isActive] have validators; [availableSeats] goes through the generic
    assignment like any other key. *)
Inductive ShowtimeUpdate :=
  | upd_date (d : Z)
  | upd_time (t : string)
  | upd_price (p : Q)
  | upd_totalSeats (n : Z)
  | upd_isActive (b : bool)
  | upd_availableSeats (n : Z).

(** ** Route handlers *)

Section Handlers.
Variable tz : Z.

(** The test of the [showtimes.find] callbacks: same calendar day and
    same time label. *)
Definition sameShowtime (d : Z) (t : string) (st : Showtime) : Prop :=
  JS.toDateString tz (st_date st) = JS.toDateString tz d ∧ st_time st = t.

#[global] Instance sameShowtime_dec d t st : Decision (sameShowtime d t st).
Proof. unfold sameShowtime. apply _. Defined.

(** [movie.showtimes.find(st => same day && same label)], with the
    position of the entry found. *)
Definition findShowtime (m : Movie) (d : Z) (t : string)
  : option (nat * Showtime) :=
  list_find (sameShowtime d t) (showtimes m).

(** The same with [&& st.isActive], as the create route has it. *)
Definition findActiveShowtime (m : Movie) (d : Z) (t : string)
  : option (nat * Showtime) :=
  list_find (λ st, sameShowtime d t st ∧ st_isActive st = true) (showtimes m).

Definition activeStatus (b : Booking) : Prop :=
  status b = pending ∨ status b = confirmed.

(** [Booking.find({ movie, 'showtime.date', 'showtime.time',
    status: { $in: ['pending', 'confirmed'] } })]. *)
Definition existingBookings (bs : list Booking) (m : nat) (d : Z) (t : string)
  : list Booking :=
  filter (λ b, movie b = m ∧ date (showtime b) = d ∧ time (showtime b) = t
               ∧ activeStatus b) bs.

Definition bookedSeats (bs : list Booking) (m : nat) (d : Z) (t : string)
  : list string :=
  existingBookings bs m d t ≫= seats.

Definition conflictingSeats (requestedSeats booked : list string)
  : list string :=
  filter (λ seat, seat ∈ booked) requestedSeats.

(** The express-validator chain of POST /api/bookings, on the parts of
    the body that the model keeps; the body is the sanitized one (the
    time label and the notes trimmed). *)
Definition validCreate (req : CreateBookingReq) : bool :=
  bool_decide (showtimeTime req ≠ "")
  && (1 <=? Z.of_nat (length (req_seats req)))
  && (1 <=? req_quantity req)
  && lengthAtMost 500 (req_notes req).

(** POST /api/bookings.  The document given to [Booking.create] has no
    [bookingCode].  [None]: the handler is still in the code loop. *)
Definition createBooking (tape : list Q) (u : User) (req : CreateBookingReq)
  (db : DB) : option (Response * list Write) :=
  if negb (validCreate req) then Some (respond 400 "Validation failed", [])
  else
  match movies db !! movieId req with
  | None => Some (respond 404 "Movie not found", [])
  | Some movie =>
    match findActiveShowtime movie (showtimeDate req) (showtimeTime req) with
    | None => Some (respond 404 "Showtime not found or inactive", [])
    | Some (i, showtime) =>
      if availableSeats showtime <? req_quantity req
      then Some (respond 400 "Not enough seats available", [])
      else
      let booked := bookedSeats (bookings db) (movieId req)
                      (showtimeDate req) (showtimeTime req) in
      let requestedSeats := req_seats req in
      let conflicting := conflictingSeats requestedSeats booked in
      if 0 <? Z.of_nat (length conflicting)
      then Some (respond 400
                   ("Seats " +:+ JS.join ", " conflicting
                    +:+ " are already booked"), [])
      else
      let totalAmount := (price showtime * inject_Z (req_quantity req))%Q in
      let doc :=
        mkBooking (id u) (movieId req)
          (mkShowtimeRef (showtimeDate req) (showtimeTime req))
          requestedSeats (req_quantity req) totalAmount pending
          (req_paymentMethod req) pay_pending "" (req_notes req)
          None None None in
      match Booking_create tape (bookings db) doc with
      | None => None
      | Some Rejected =>
          Some (respond 500 "Server error while creating booking", [])
      | Some (Stored booking) =>
        let showtime' :=
          set_availableSeats (availableSeats showtime - req_quantity req)
            showtime in
        let movie' := set_showtimes (<[i := showtime']> (showtimes movie)) movie in
        Some (mkResponse 201 "Booking created successfully" (Some booking),
              [InsertBooking booking; SaveMovie (movieId req) movie'])
      end
    end
  end.

(** The showtime moment of the cancel route: the stored date with its
    local hours and minutes set from the two first ':' fields of the
    time label; [None] is an Invalid Date. *)
Definition showtimeDateTime (b : Booking) : option Z :=
  let fields := JS.split ":" (time (showtime b)) in
  let hours := fields !! 0%nat in
  let minutes := fields !! 1%nat in
  JS.setHours tz (date (showtime b))
    (JS.parseIntOpt hours) (JS.parseIntOpt minutes).

Definition timeDiff (now : Z) (b : Booking) : option Z :=
  (λ t, t - now) <$> showtimeDateTime b.

Definition hoursDiff (now : Z) (b : Booking) : option Q :=
  (λ d, inject_Z d / inject_Z (1000 * 60 * 60))%Q <$> timeDiff now b.

(** [hoursDiff < 2]; a comparison with NaN is false. *)
Definition withinWindow (now : Z) (b : Booking) : bool :=
  match hoursDiff now b with
  | Some h => if Qlt_le_dec h 2 then true else false
  | None => false
  end.

(** [req.body.reason || dflt]. *)
Definition reasonOr (reason : option string) (dflt : string) : string :=
  match reason with
  | Some r => if bool_decide (r = "") then dflt else r
  | None => dflt
  end.

Definition markCancelled (now : Z) (u : User) (r : string) (b : Booking)
  : Booking :=
  mkBooking (user b) (movie b) (showtime b) (seats b) (quantity b)
    (totalAmount b) cancelled (paymentMethod b) (paymentStatus b)
    (bookingCode b) (notes b) (Some now) (Some (id u)) (Some r).

Definition set_status (s : Status) (b : Booking) : Booking :=
  mkBooking (user b) (movie b) (showtime b) (seats b) (quantity b)
    (totalAmount b) s (paymentMethod b) (paymentStatus b)
    (bookingCode b) (notes b) (cancelledAt b) (cancelledBy b)
    (cancellationReason b).

(** The seat restoration of the cancel route: the writes it issues. *)
Definition restoreSeats (db : DB) (b : Booking) : list Write :=
  match movies db !! movie b with
  | None => []
  | Some m =>
      match findShowtime m (date (showtime b)) (time (showtime b)) with
      | None => []
      | Some (i, st) =>
          let st' := set_availableSeats (availableSeats st + quantity b) st in
          [SaveMovie (movie b) (set_showtimes (<[i := st']> (showtimes m)) m)]
      end
  end.

(** PUT /api/bookings/:id/cancel, at time [now]; [reason] is the one of
    the body as sent, which the validator chain trims. *)
Definition cancelBooking (now : Z) (u : User) (bid : nat)
  (reason : option string) (db : DB) : Response * list Write :=
  let reason := JS.trim <$> reason in
  if negb (lengthAtMost 200 reason) then (respond 400 "Validation failed", [])
  else
  match bookings db !! bid with
  | None => (respond 404 "Booking not found", [])
  | Some booking =>
    if bool_decide (user booking ≠ id u) && bool_decide (role u ≠ role_admin)
    then (respond 403 "Not authorized to cancel this booking", [])
    else if bool_decide (status booking = cancelled)
    then (respond 400 "Booking is already cancelled", [])
    else if bool_decide (status booking = completed)
    then (respond 400 "Cannot cancel completed booking", [])
    else if withinWindow now booking
    then (respond 400 "Cannot cancel booking within 2 hours of showtime", [])
    else
      let booking' :=
        markCancelled now u (reasonOr reason "Cancelled by user") booking in
      if negb (validateBooking booking')
      then (respond 500 "Server error while cancelling booking", [])
      else
      (mkResponse 200 "Booking cancelled successfully" (Some booking'),
       SaveBooking bid booking' :: restoreSeats db booking')
  end.

(** PUT /api/admin/bookings/:id/status; the router admits admins only.
    The route has no validator on [reason]: the schema is the first to
    see it, when the booking is saved. *)
Definition updateBookingStatus (now : Z) (u : User) (bid : nat)
  (s : Status) (reason : option string) (db : DB) : Response * list Write :=
  match bookings db !! bid with
  | None => (respond 404 "Booking not found", [])
  | Some booking =>
      let booking1 := set_status s booking in
      let booking2 :=
        if bool_decide (s = cancelled)
        then markCancelled now u (reasonOr reason "Cancelled by admin") booking1
        else booking1 in
      if negb (validateBooking booking2)
      then (respond 500 "Server error while updating booking status", [])
      else
      (mkResponse 200 "Booking status updated successfully" (Some booking2),
       [SaveBooking bid booking2])
  end.

(** One step of the [Object.keys(req.body).forEach] of the showtime
    update. *)
Definition applyUpdate (showtime : Showtime) (kv : ShowtimeUpdate) : Showtime :=
  match kv with
  | upd_date d =>
      mkShowtime (st_id showtime) d (st_time showtime) (price showtime)
        (totalSeats showtime) (availableSeats showtime) (st_isActive showtime)
  | upd_totalSeats newTotalSeats =>
      let bookedSeats := totalSeats showtime - availableSeats showtime in
      mkShowtime (st_id showtime) (st_date showtime) (st_time showtime)
        (price showtime) newTotalSeats (Z.max 0 (newTotalSeats - bookedSeats))
        (st_isActive showtime)
  | upd_time t =>
      mkShowtime (st_id showtime) (st_date showtime) t (price showtime)
        (totalSeats showtime) (availableSeats showtime) (st_isActive showtime)
  | upd_price p =>
      mkShowtime (st_id showtime) (st_date showtime) (st_time showtime) p
        (totalSeats showtime) (availableSeats showtime) (st_isActive showtime)
  | upd_isActive a =>
      mkShowtime (st_id showtime) (st_date showtime) (st_time showtime)
        (price showtime) (totalSeats showtime) (availableSeats showtime) a
  | upd_availableSeats n => set_availableSeats n showtime
  end.

(** The validators of the showtime update that bear on the model. *)
Definition validUpdate (kv : ShowtimeUpdate) : bool :=
  match kv with
  | upd_totalSeats n => 1 <=? n
  | upd_price p => Qle_bool 0 p
  | upd_time t => bool_decide (t ≠ "")
  | _ => true
  end.

(** [movie.showtimes.id(showtimeId)] with its position. *)
Definition showtimeById (m : Movie) (sid : nat) : option (nat * Showtime) :=
  list_find (λ st, st_id st = sid) (showtimes m).

(** The key is [availableSeats]. *)
Definition setsAvailableSeats (kv : ShowtimeUpdate) : bool :=
  match kv with
  | upd_availableSeats _ => true
  | _ => false
  end.

(** PUT /api/movies/:id/showtimes/:showtimeId.  The schema's minimum of
    0 on [availableSeats] refuses the save when a key of the body has
    left the counter below 0. *)
Definition updateShowtime (mid sid : nat) (body : list ShowtimeUpdate)
  (db : DB) : Response * list Write :=
  if negb (forallb validUpdate body) then (respond 400 "Validation failed", [])
  else
  match movies db !! mid with
  | None => (respond 404 "Movie not found", [])
  | Some m =>
      match showtimeById m sid with
      | None => (respond 404 "Showtime not found", [])
      | Some (i, st) =>
          let st' := foldl applyUpdate st body in
          if existsb setsAvailableSeats body && (availableSeats st' <? 0)
          then (respond 500 "Server error while updating showtime", [])
          else
          (respond 200 "Showtime updated successfully",
           [SaveMovie mid (set_showtimes (<[i := st']> (showtimes m)) m)])
      end
  end.

(** POST /api/movies/:id/showtimes; [sid] is the fresh sub-document id. *)
Definition addShowtime (mid sid : nat) (d : Z) (t : string) (p : Q)
  (total : Z) (db : DB) : Response * list Write :=
  if negb (bool_decide (t ≠ "") && Qle_bool 0 p && (1 <=? total))
  then (respond 400 "Validation failed", [])
  else
  match movies db !! mid with
  | None => (respond 404 "Movie not found", [])
  | Some m =>
      match findShowtime m d t with
      | Some _ =>
          (respond 400 "Showtime already exists for this date and time", [])
      | None =>
          (respond 201 "Showtime added successfully",
           [SaveMovie mid
              (set_showtimes (showtimes m ++ [mkShowtime sid d t p total total true])
                 m)])
      end
  end.

(** DELETE /api/movies/:id/showtimes/:showtimeId. *)
Definition deleteShowtime (mid sid : nat) (db : DB) : Response * list Write :=
  match movies db !! mid with
  | None => (respond 404 "Movie not found", [])
  | Some m =>
      match showtimeById m sid with
      | None => (respond 404 "Showtime not found", [])
      | Some (i, _) =>
          (respond 200 "Showtime deleted successfully",
           [SaveMovie mid (set_showtimes (delete i (showtimes m)) m)])
      end
  end.
End Handlers.

(** ** The error taxonomy, as the responses the handlers send *)

Definition ValidationFailed : Response := respond 400 "Validation failed".
Definition MovieNotFound : Response := respond 404 "Movie not found".
Definition ShowtimeNotFound : Response :=
  respond 404 "Showtime not found or inactive".
Definition CapacityExceeded : Response :=
  respond 400 "Not enough seats available".
Definition SeatConflict (offending : list string) : Response :=
  respond 400 ("Seats " +:+ JS.join ", " offending +:+ " are already booked").
Definition BookingNotFound : Response := respond 404 "Booking not found".
Definition Forbidden : Response :=
  respond 403 "Not authorized to cancel this booking".
Definition AlreadyCancelled : Response :=
  respond 400 "Booking is already cancelled".
Definition AlreadyCompleted : Response :=
  respond 400 "Cannot cancel completed booking".
Definition CancellationWindowExpired : Response :=
  respond 400 "Cannot cancel booking within 2 hours of showtime".

(** What the [catch] of the create route sends. *)
Definition CreateFailed : Response :=
  respond 500 "Server error while creating booking".


(** ** Notions used in the statements *)

(** Bounds of the seat counter of a showtime. *)
Definition seatBounds (st : Showtime) : Prop :=
  0 <= availableSeats st <= totalSeats st.

Definition dbSeatBounds (db : DB) : Prop :=
  ∀ (i : nat) (m : Movie) (st : Showtime),
    movies db !! i = Some m → st ∈ showtimes m → seatBounds st.

(** Seat exclusivity keyed as the conflict query keys it: two distinct
    active bookings of one movie with the same stored date and the same
    time label have no seat label in common. *)
Definition exclusive (bs : list Booking) : Prop :=
  ∀ (i j : nat) (b1 b2 : Booking) (x : string),
    bs !! i = Some b1 → bs !! j = Some b2 → i ≠ j →
    activeStatus b1 → activeStatus b2 →
    movie b1 = movie b2 → showtime b1 = showtime b2 →
    x ∈ seats b1 → x ∉ seats b2.

Definition codes (db : DB) : list string := bookingCode <$> bookings db.

(** A value that [Math.random()] can return. *)
Definition unitInterval (r : Q) : Prop := (0 <= r)%Q ∧ (r < 1)%Q.

Definition inAlphabet (c : ascii) : Prop :=
  let n := nat_of_ascii c in
  (65 <= n <= 90)%nat ∨ (48 <= n <= 57)%nat.

Definition authorized (u : User) (b : Booking) : Prop :=
  user b = id u ∨ role u = role_admin.

(** The reason of a cancel request passes the validator of the route:
    at most 200 characters once trimmed. *)
Definition validReason (reason : option string) : Prop :=
  lengthAtMost 200 (JS.trim <$> reason) = true.

(** The booking as the cancel route saves it. *)
Definition userCancelled (now : Z) (u : User) (reason : option string)
  (b : Booking) : Booking :=
  markCancelled now u (reasonOr (JS.trim <$> reason) "Cancelled by user") b.

(** What the [catch] of the cancel route sends. *)
Definition CancelFailed : Response :=
  respond 500 "Server error while cancelling booking".


(** The code has eight characters of the alphabet. *)
Definition wellFormedCode (c : string) : Prop :=
  String.length c = 8%nat ∧ Forall inAlphabet (list_ascii_of_string c).

(** The collections reached from [bs] by new documents on which the
    hook has run, one after the other, on values of [Math.random] in
    [0, 1): each is stored with the code that the hook has set. *)
Inductive created (bs : list Booking) : list Booking → Prop :=
  | created_none : created bs bs
  | created_next (tape : list Q) (doc : Booking) (code : string)
      (bs' : list Booking) :
      created bs bs' →
      Forall unitInterval tape →
      preSave tape bs' = Some code →
      created bs (bs' ++ [set_bookingCode code doc]).

(** ** The exposed operations as one transition system *)

Inductive Request :=
  | ReqCreate (tape : list Q) (u : User) (req : CreateBookingReq)
  | ReqCancel (now : Z) (u : User) (bid : nat) (reason : option string)
  | ReqStatus (now : Z) (u : User) (bid : nat) (s : Status)
      (reason : option string)
  | ReqUpdateShowtime (mid sid : nat) (body : list ShowtimeUpdate)
  | ReqAddShowtime (mid sid : nat) (d : Z) (t : string) (p : Q) (total : Z)
  | ReqDeleteShowtime (mid sid : nat).

Definition handle (tz : Z) (r : Request) (db : DB)
  : option (Response * list Write) :=
  match r with
  | ReqCreate tape u req => createBooking tz tape u req db
  | ReqCancel now u bid reason => Some (cancelBooking tz now u bid reason db)
  | ReqStatus now u bid s reason => Some (updateBookingStatus now u bid s reason db)
  | ReqUpdateShowtime mid sid body => Some (updateShowtime mid sid body db)
  | ReqAddShowtime mid sid d t p total => Some (addShowtime tz mid sid d t p total db)
  | ReqDeleteShowtime mid sid => Some (deleteShowtime mid sid db)
  end.

(** One request served: the store afterwards. *)
Definition step (tz : Z) (r : Request) (db : DB) : option DB :=
  (λ rw : Response * list Write, commit rw.2 db) <$> handle tz r db.



(** ** Scenario data *)

Module Scenario.
(** UTC server; one movie with one showtime on day 20000 at 19:30. *)
Definition tz : Z := 0.
Definition day : Z := 20000 * JS.msPerDay.
Definition hall (total avail : Z) : Showtime :=
  mkShowtime 0 day "19:30" (25 # 2) total avail true.
Definition film (total avail : Z) : Movie :=
  mkMovie "Metropolis" "metropolis.jpg" [hall total avail] true.
Definition store (total avail : Z) : DB :=
  mkDB {[ 1%nat := film total avail ]} [].

Definition alice : User := mkUser 7 role_user.
Definition bob : User := mkUser 8 role_user.
Definition root : User := mkUser 1 role_admin.

Definition request (d : Z) (ss : list string) (q : Z) : CreateBookingReq :=
  mkCreateBookingReq 1 d "19:30" ss q cash None.

(** Two tapes of eight draws; they spell ABS9MJHG and Z0123456. *)
Definition tapeA : list Q :=
  [0; 1 # 36; 1 # 2; 35 # 36; 1 # 3; 1 # 4; 1 # 5; 1 # 6]%Q.
Definition tapeB : list Q :=
  [25 # 36; 26 # 36; 27 # 36; 28 # 36; 29 # 36; 30 # 36; 31 # 36; 32 # 36]%Q.

(** The showtime moment, and times of day before it. *)
Definition showMoment : Z := day + 19 * JS.msPerHour + 30 * JS.msPerMinute.
Definition threeHoursBefore : Z := showMoment - 3 * JS.msPerHour.
Definition twoHoursBefore : Z := showMoment - 2 * JS.msPerHour.
Definition justInside : Z := showMoment - 2 * JS.msPerHour + 1.

(** The requests of the runs below. *)
Definition pairA : CreateBookingReq := request day ["A1"; "A2"] 2.
Definition overlapA : CreateBookingReq := request day ["A2"; "A3"] 1.
(** The same calendar day, one hour later. *)
Definition singleA1Later : CreateBookingReq :=
  request (day + JS.msPerHour) ["A1"] 1.
(** Three seat labels, quantity 1. *)
Definition threeForOne : CreateBookingReq :=
  request day ["B1"; "B2"; "B3"] 1.

(** Alice's booking of A1 and A2, as a stored document. *)
Definition ticket : Booking :=
  mkBooking 7 1 (mkShowtimeRef day "19:30") ["A1"; "A2"] 2 25 pending cash
    pay_pending "ABS9MJHG" None None None None.

(** A store that holds Alice's booking: a hall of 10 with 8 seats left. *)
Definition afterPair : DB := mkDB {[ 1%nat := film 10 8 ]} [ticket].


(** Bob's booking of A1 beside a cancelled booking of Alice's for A1. *)
Definition aliceCancelledA1 : Booking :=
  mkBooking 7 1 (mkShowtimeRef day "19:30") ["A1"] 1 (25 # 2) cancelled cash
    pay_pending "ABS9MJHG" None (Some threeHoursBefore) (Some 7%nat)
    (Some "Cancelled by user").
Definition bobA1 : Booking :=
  mkBooking 8 1 (mkShowtimeRef day "19:30") ["A1"] 1 (25 # 2) pending cash
    pay_pending "Z0123456" None None None None.
Definition rebooked : DB :=
  mkDB {[ 1%nat := film 10 9 ]} [aliceCancelledA1; bobA1].

(** A hall of one seat, which Alice holds. *)
Definition aliceA1 : Booking :=
  mkBooking 7 1 (mkShowtimeRef day "19:30") ["A1"] 1 (25 # 2) pending cash
    pay_pending "ABS9MJHG" None None None None.
Definition soldOut : DB := mkDB {[ 1%nat := film 1 0 ]} [aliceA1].
End Scenario.

(** ** Further routes and their callers *)

(** DELETE /api/movies/:id ([Movie.findByIdAndDelete]); the route is for
    admins.  Bookings are not looked at. *)
Definition deleteMovie (mid : nat) (db : DB) : Response * DB :=
  match movies db !! mid with
  | None => (respond 404 "Movie not found", db)
  | Some _ =>
      (respond 200 "Movie deleted successfully",
       set_movies (delete mid (movies db)) db)
  end.

(** [res.json] on a booking populated with some paths of its movie.
    The Movie schema serializes its virtuals, and [averageRating] calls
    [this.rating.toFixed]; the populate calls of the read and list routes
    do not select [rating], so serializing throws whenever the movie of
    the booking is in the store.  A movie that is gone populates to
    [null] and serializes. *)
Definition serializes (db : DB) (booking : Booking) : bool :=
  bool_decide (movies db !! movie booking = None).

(** The two read routes from the owner test on, on a booking populated
    with its user and its movie.  [users] holds the ids of the User
    collection: [populate] leaves [null] for an owner that is gone,
    reading [booking.user._id] then throws and the [catch] answers 500.
    A body without [message] has the empty message here. *)
Definition viewBooking (users : gset nat) (u : User) (db : DB)
  (booking : Booking) : Response :=
  if bool_decide (user booking ∉ users)
  then respond 500 "Server error while fetching booking"
  else if bool_decide (user booking ≠ id u) && bool_decide (role u ≠ role_admin)
  then respond 403 "Not authorized to view this booking"
  else if negb (serializes db booking)
  then respond 500 "Server error while fetching booking"
  else mkResponse 200 "" (Some booking).

(** GET /api/bookings/:id. *)
Definition getBooking (users : gset nat) (u : User) (bid : nat) (db : DB)
  : Response :=
  match bookings db !! bid with
  | None => respond 404 "Booking not found"
  | Some booking => viewBooking users u db booking
  end.

(** GET /api/bookings/code/:code. *)
Definition getBookingByCode (users : gset nat) (u : User) (code : string)
  (db : DB) : Response :=
  match findOne_bookingCode (bookings db) code with
  | None => respond 404 "Booking not found"
  | Some booking => viewBooking users u db booking
  end.

(** The value of the [status] path as the store and the JSON have it. *)
Definition statusName (s : Status) : string :=
  match s with
  | pending => "pending"
  | confirmed => "confirmed"
  | cancelled => "cancelled"
  | completed => "completed"
  end.

(** [parseInt(q) || dflt] on a query parameter that may be absent: NaN
    and 0 are falsy. *)
Definition queryInt (q : option string) (dflt : Z) : JS.Number :=
  match JS.parseIntOpt q with
  | JS.NaN => JS.Int dflt
  | JS.Int n => if bool_decide (n = 0) then JS.Int dflt else JS.Int n
  | JS.Infinity negative => JS.Infinity negative
  end.

(** The [pagination] object of the list routes; the count is
    [totalBookings] or [totalMovies] by the route. *)
Record Pagination := mkPagination {
  currentPage : Z;
  totalPages : Z;
  totalCount : Z;
  hasNextPage : bool;
  hasPrevPage : bool
}.

(** [Math.ceil(total / limit)] is exact on counts below 2^53. *)
Definition paginationOf (page limit total : Z) : Pagination :=
  mkPagination page (Qceiling (inject_Z total / inject_Z limit)) total
    (page * limit <? total) (1 <? page).

(** [if (req.query.status) filter.status = req.query.status]. *)
Definition statusFilter (q : option string) (b : Booking) : bool :=
  match q with
  | Some s => bool_decide (s = "") || bool_decide (statusName (status b) = s)
  | None => true
  end.

Record BookingList := mkBookingList {
  listed : list Booking;
  pageInfo : Pagination
}.

(** GET /api/bookings: the caller's bookings, newest first, one page.
    [byCreatedAtDesc] is [.sort({ createdAt: -1 })]; the creation stamp is
    not a path of the model, so the order is a parameter.  The page is
    populated with paths of the movies and sent with [res.json], which
    throws on a booking whose movie is in the store.  [None]: a page or a
    limit that is not finite or below 1, or a page times the limit from
    2^53 on; they reach the driver as a skip or a limit that it refuses
    or that is not exact, and are outside the model. *)
Definition listBookings (byCreatedAtDesc : list Booking → list Booking)
  (u : User) (qpage qlimit qstatus : option string) (db : DB)
  : option (Response + BookingList) :=
  match queryInt qpage 1, queryInt qlimit 10 with
  | JS.Int page, JS.Int limit =>
      let skip := (page - 1) * limit in
      let found :=
        filter (λ b, user b = id u ∧ statusFilter qstatus b = true)
          (bookings db) in
      if (page <? 1) || (limit <? 1) || (2 ^ 53 <=? page * limit) then None
      else
        let bookings :=
          take (Z.to_nat limit)
            (drop (Z.to_nat skip) (byCreatedAtDesc found)) in
        if forallb (serializes db) bookings
        then Some (inr (mkBookingList bookings
                          (paginationOf page limit
                             (Z.of_nat (length found)))))
        else Some (inl (respond 500 "Server error while fetching bookings"))
  | _, _ => None
  end.

(** *** The user dashboard of the client (pages/Dashboard.js) *)

Record Stats := mkStats {
  totalBookings : nat;
  activeBookings : nat;
  totalSpent : Q
}.

(** The three numbers that [fetchUserData] computes from the bookings of
    its second response. *)
Definition statsOf (allBookings : list Booking) : Stats :=
  mkStats (length allBookings)
    (length (filter activeStatus allBookings))
    (foldl (λ sum booking, (sum + totalAmount booking)%Q) 0%Q allBookings).

(** [fetchUserData]: GET /api/bookings?limit=5 and GET /api/bookings, as
    the caller [u]; the recent bookings and the statistics that it sets.
    [None]: one of the requests has failed, the [catch] logs the error
    and nothing is set. *)
Definition fetchUserData (byCreatedAtDesc : list Booking → list Booking)
  (u : User) (db : DB) : option (list Booking * Stats) :=
  match listBookings byCreatedAtDesc u None (Some "5") None db,
        listBookings byCreatedAtDesc u None None None db with
  | Some (inr bookingsResponse), Some (inr statsResponse) =>
      Some (listed bookingsResponse, statsOf (listed statsResponse))
  | _, _ => None
  end.

(** *** The movie context of the client (contexts/MovieContext.js) *)

Module MovieContext.

Record Filters := mkFilters {
  search : string;
  genre : string;
  featured : bool
}.

(** The payload of SET_FILTERS: the keys it carries. *)
Record FiltersPatch := mkFiltersPatch {
  patch_search : option string;
  patch_genre : option string;
  patch_featured : option bool
}.

Record State := mkState {
  movies : list Movie;
  currentMovie : option Movie;
  loading : bool;
  error : option string;
  pagination : Pagination;
  filters : Filters
}.

Definition initialState : State :=
  mkState [] None false None (mkPagination 1 0 0 false false)
    (mkFilters "" "" false).

Inductive Action :=
  | FETCH_MOVIES_START
  | FETCH_MOVIES_SUCCESS (payload_movies : list Movie)
      (payload_pagination : Pagination)
  | FETCH_MOVIES_FAILURE (payload : string)
  | FETCH_MOVIE_SUCCESS (payload : Movie)
  | SET_FILTERS (payload : FiltersPatch)
  | CLEAR_FILTERS
  | CLEAR_ERROR
  | UNKNOWN.

(** [{ ...state.filters, ...action.payload }]. *)
Definition spread (f : Filters) (p : FiltersPatch) : Filters :=
  mkFilters (default (search f) (patch_search p))
    (default (genre f) (patch_genre p))
    (default (featured f) (patch_featured p)).

Definition movieReducer (state : State) (action : Action) : State :=
  match action with
  | FETCH_MOVIES_START =>
      mkState (movies state) (currentMovie state) true None
        (pagination state) (filters state)
  | FETCH_MOVIES_SUCCESS ms pg =>
      mkState ms (currentMovie state) false None pg (filters state)
  | FETCH_MOVIES_FAILURE msg =>
      mkState (movies state) (currentMovie state) false (Some msg)
        (pagination state) (filters state)
  | FETCH_MOVIE_SUCCESS m =>
      mkState (movies state) (Some m) false None
        (pagination state) (filters state)
  | SET_FILTERS p =>
      mkState (movies state) (currentMovie state) (loading state) (error state)
        (pagination state) (spread (filters state) p)
  | CLEAR_FILTERS =>
      mkState (movies state) (currentMovie state) (loading state) (error state)
        (pagination state) (filters initialState)
  | CLEAR_ERROR =>
      mkState (movies state) (currentMovie state) (loading state) None
        (pagination state) (filters state)
  | UNKNOWN => state
  end.

(** [fetchMovie(id)]: the actions it dispatches, by the outcome of the
    request ([inl] the movie of the response, [inr] the message of the
    failure, absent when the response carries none).  The message of the
    action is [message || 'Failed to fetch movie'], the [||] of
    [reasonOr]: an empty message is falsy. *)
Definition fetchMovie (outcome : Movie + option string) (state : State)
  : State :=
  let state1 := movieReducer state FETCH_MOVIES_START in
  match outcome with
  | inl movie => movieReducer state1 (FETCH_MOVIE_SUCCESS movie)
  | inr message =>
      movieReducer state1
        (FETCH_MOVIES_FAILURE (reasonOr message "Failed to fetch movie"))
  end.

(** [fetchMovies(page, filters)] in the same way. *)
Definition fetchMovies (outcome : list Movie * Pagination + option string)
  (state : State) : State :=
  let state1 := movieReducer state FETCH_MOVIES_START in
  match outcome with
  | inl (ms, pg) => movieReducer state1 (FETCH_MOVIES_SUCCESS ms pg)
  | inr message =>
      movieReducer state1
        (FETCH_MOVIES_FAILURE (reasonOr message "Failed to fetch movies"))
  end.

(** What the movie page renders (MovieDetail): the spinner while loading,
    the not-found notice without a current movie, the movie and its
    active showtimes otherwise. *)
Inductive View :=
  | Spinner
  | NotFound
  | Detail (m : Movie) (activeShowtimes : list Showtime).

Definition MovieDetail (state : State) : View :=
  if loading state then Spinner
  else match currentMovie state with
       | None => NotFound
       | Some m =>
           Detail m (filter (λ st, st_isActive st = true) (showtimes m))
       end.

End MovieContext.

(** ** Further notions used in the statements *)

(** No two showtime entries of the movie are on the same calendar day with
    the same time label. *)
Definition uniqueShowtimes (tz : Z) (m : Movie) : Prop :=
  ∀ (i j : nat) (st1 st2 : Showtime),
    showtimes m !! i = Some st1 → showtimes m !! j = Some st2 →
    sameShowtime tz (st_date st1) (st_time st1) st2 → i = j.

Definition dbUniqueShowtimes (tz : Z) (db : DB) : Prop :=
  ∀ (mid : nat) (m : Movie), movies db !! mid = Some m → uniqueShowtimes tz m.

(** The seats that the active bookings of a movie hold on a showtime: the
    sum of the quantities of the pending and confirmed bookings whose
    stored date and time label match the entry as the route lookups match
    them. *)
Definition holds (tz : Z) (mid : nat) (st : Showtime) (b : Booking) : Prop :=
  movie b = mid ∧ activeStatus b
  ∧ sameShowtime tz (date (showtime b)) (time (showtime b)) st.

#[global] Instance holds_dec tz mid st b : Decision (holds tz mid st b).
Proof. unfold holds, activeStatus. apply _. Defined.

Definition reserved (tz : Z) (bs : list Booking) (mid : nat) (st : Showtime)
  : Z :=
  foldr (λ b acc, quantity b + acc) 0 (filter (holds tz mid st) bs).

(** The counter accounts for the active bookings. *)
Definition conserved (tz : Z) (db : DB) : Prop :=
  ∀ (mid : nat) (m : Movie) (st : Showtime),
    movies db !! mid = Some m → st ∈ showtimes m →
    availableSeats st + reserved tz (bookings db) mid st = totalSeats st.

(** ** A second scenario

    The movie of the first scenario with a later showtime beside the one
    at 19:30, and with a closed entry for the day and label of the one at
    19:30; a store whose movie is gone; the users of the store; a user's
    list, newest first. *)

Module Programme.
Definition nextDay : Z := Scenario.day + JS.msPerDay.
Definition late : Showtime := mkShowtime 5 nextDay "21:00" 10 50 50 true.
Definition twoShows : Movie :=
  mkMovie "Metropolis" "metropolis.jpg" [Scenario.hall 10 10; late] true.
Definition programme : DB := mkDB {[ 1%nat := twoShows ]} [].



(** A store that holds Alice's booking of a movie that is gone. *)
Definition orphaned : DB := mkDB ∅ [Scenario.ticket].

Definition users : gset nat := {[ 7%nat; 8%nat; 1%nat ]}.

(** Bookings are stored in the order of their creation. *)
Definition newestFirst : list Booking → list Booking := reverse.

Definition twelve : list Booking := replicate 12 Scenario.ticket.
End Programme.

(** * Properties *)

(** ** Lists and the store *)

Lemma find_insert_same {A} (P : A → Prop) `{∀ x, Decision (P x)}
  (l : list A) (i : nat) (x y : A) :
  list_find P l = Some (i, x) → P y → list_find P (<[i := y]> l) = Some (i, y).
Proof.
  intros Hf Hy. apply list_find_Some in Hf as (Hl & _ & Hmin).
  apply list_find_Some. split_and!.
  - apply list_lookup_insert_eq. by eapply lookup_lt_Some.
  - done.
  - intros j z Hj Hlt. rewrite list_lookup_insert_ne in Hj by lia. eauto.
Qed.

Lemma commit_nil (db : DB) : commit [] db = db.
Proof. reflexivity. Qed.

(** ** Numbers and dates *)

Lemma roundDouble_small (x : Z) :
  Z.abs x < 2 ^ 53 → JS.roundDouble x = JS.Int x.
Proof.
  intros Hx. unfold JS.roundDouble. apply Z.ltb_lt in Hx. by rewrite Hx.
Qed.

Lemma mul_exact (x y : Z) : Z.abs (x * y) < 2 ^ 53 → JS.mul x y = Some (x * y).
Proof. intros H. unfold JS.mul. by rewrite roundDouble_small. Qed.

Lemma add_exact (x y : Z) : Z.abs (x + y) < 2 ^ 53 → JS.add x y = Some (x + y).
Proof. intros H. unfold JS.add. by rewrite roundDouble_small. Qed.

(** On a valid stored date, with hours and minutes of a moderate size
    and an offset of a day at most, [setHours] computes without
    rounding. *)
Lemma setHours_exact (tz d h m : Z) :
  Z.abs tz <= JS.msPerDay → Z.abs d <= 8640000000000000 →
  Z.abs h <= 1000000 → Z.abs m <= 1000000 →
  JS.setHours tz d (JS.Int h) (JS.Int m)
  = JS.TimeClip
      (JS.Day (d + tz) * JS.msPerDay + h * JS.msPerHour + m * JS.msPerMinute
       - tz).
Proof.
  intros Htz Hd Hh Hm.
  unfold JS.setHours, JS.MakeTime, JS.MakeDate, JS.LocalTime. simpl.
  unfold JS.msPerDay, JS.msPerHour, JS.msPerMinute in *.
  assert (Hday : 86400000 * ((d + tz) / 86400000) <= d + tz
                 ∧ d + tz - 86400000 < 86400000 * ((d + tz) / 86400000)).
  { pose proof (Z.div_mod (d + tz) 86400000 ltac:(lia)).
    pose proof (Z.mod_pos_bound (d + tz) 86400000 ltac:(lia)). lia. }
  unfold JS.Day, JS.msPerDay.
  set (day := (d + tz) / 86400000) in *.
  assert (H53 : 2 ^ 53 = 9007199254740992) by reflexivity.
  rewrite (mul_exact h) by (rewrite H53; lia). simpl.
  rewrite (mul_exact m) by (rewrite H53; lia). simpl.
  rewrite (add_exact (h * 3600000)) by (rewrite H53; lia). simpl.
  change (0 * 1000) with 0.
  rewrite (add_exact _ 0) by (rewrite H53; lia). simpl.
  rewrite (add_exact _ 0) by (rewrite H53; lia). simpl.
  rewrite (mul_exact day) by (rewrite H53; lia). simpl.
  rewrite !Z.add_0_r.
  rewrite (add_exact (day * 86400000)) by (rewrite H53; lia). simpl.
  rewrite (add_exact _ (- tz)) by (rewrite H53; lia). simpl.
  f_equal. lia.
Qed.

Section CreateBooking.
Variable tz : Z.

Lemma validateBooking_code (b : Booking) :
  validateBooking b = true → bookingCode b ≠ "".
Proof.
  unfold validateBooking. rewrite !andb_true_iff.
  intros [[[_ Hc] _] _]. by apply bool_decide_eq_true in Hc.
Qed.

(** A document without a code is refused, whatever the tape. *)
Lemma Booking_create_no_code tape bs doc :
  bookingCode doc = "" → Booking_create tape bs doc = Some Rejected.
Proof.
  intros Hc. unfold Booking_create.
  destruct (validateBooking doc) eqn:Hv; [|done].
  by apply validateBooking_code in Hv.
Qed.

(** The outcomes of the create route, in the order of its guards: no
    request is answered 201, none writes. *)
Lemma createBooking_inv tape u req db res ws :
  createBooking tz tape u req db = Some (res, ws) →
  ws = [] ∧
  (res = ValidationFailed ∧ validCreate req = false
   ∨ res = MovieNotFound ∧ movies db !! movieId req = None
   ∨ (∃ m, res = ShowtimeNotFound ∧ movies db !! movieId req = Some m
           ∧ findActiveShowtime tz m (showtimeDate req) (showtimeTime req) = None)
   ∨ (∃ m i st, res = CapacityExceeded ∧ movies db !! movieId req = Some m
           ∧ findActiveShowtime tz m (showtimeDate req) (showtimeTime req)
             = Some (i, st)
           ∧ availableSeats st < req_quantity req)
   ∨ (∃ l, res = SeatConflict l ∧ l ≠ []
           ∧ l = conflictingSeats (req_seats req)
                   (bookedSeats (bookings db) (movieId req)
                      (showtimeDate req) (showtimeTime req)))
   ∨ (∃ m i st, res = CreateFailed
           ∧ validCreate req = true
           ∧ movies db !! movieId req = Some m
           ∧ findActiveShowtime tz m (showtimeDate req) (showtimeTime req)
             = Some (i, st)
           ∧ req_quantity req <= availableSeats st
           ∧ conflictingSeats (req_seats req)
               (bookedSeats (bookings db) (movieId req)
                  (showtimeDate req) (showtimeTime req)) = [])).
Proof.
  unfold createBooking. intros H.
  destruct (validCreate req) eqn:Hv; simpl in H;
    [|simplify_eq; split; [done | by left]].
  destruct (movies db !! movieId req) as [m|] eqn:Hm;
    [|simplify_eq; split; [done | right; by left]].
  destruct (findActiveShowtime tz m _ _) as [[i st]|] eqn:Hf;
    [|simplify_eq; split; [done | right; right; left; eauto]].
  destruct (availableSeats st <? req_quantity req) eqn:Hcap.
  { simplify_eq. split; [done|]. do 3 right. left.
    exists m, i, st. split_and!; try done. by apply Z.ltb_lt. }
  apply Z.ltb_ge in Hcap.
  destruct (0 <? Z.of_nat (length (conflictingSeats _ _))) eqn:Hc.
  { simplify_eq. split; [done|]. do 4 right. left.
    eexists. split_and!; try done.
    apply Z.ltb_lt in Hc. intros E. rewrite E in Hc. simpl in Hc. lia. }
  apply Z.ltb_ge in Hc.
  rewrite Booking_create_no_code in H by done.
  simplify_eq. split; [done|]. do 5 right. exists m, i, st.
  split_and!; try done.
  destruct (conflictingSeats _ _); [done | simpl in Hc; lia].
Qed.

Lemma createBooking_status tape u req db res ws :
  createBooking tz tape u req db = Some (res, ws) →
  res_status res ≠ 201 ∧ ws = [].
Proof.
  intros H. apply createBooking_inv in H as [-> Hr]. split; [|done].
  destruct Hr as [[-> _]|[[-> _]|[(?&->&_)|[(?&?&?&->&_)|[(?&->&_)
                 |(?&?&?&->&_)]]]]]; simpl; lia.
Qed.

(** The create route answers every request. *)
Lemma createBooking_answers tape u req db :
  ∃ res, createBooking tz tape u req db = Some (res, []).
Proof.
  unfold createBooking.
  destruct (validCreate req); simpl; [|eauto].
  destruct (movies db !! movieId req) as [m|]; [|eauto].
  destruct (findActiveShowtime tz m _ _) as [[i st]|]; [|eauto].
  destruct (availableSeats st <? req_quantity req); [eauto|].
  destruct (0 <? Z.of_nat (length (conflictingSeats _ _))); [eauto|].
  rewrite Booking_create_no_code by done. eauto.
Qed.

(** C8: a create request answered with anything but 201 (validation
    failure, movie or showtime not found, not enough seats, seat
    conflict) issues no write, so the store is as before: no booking
    document and no seat counter changes.  A request answered with 201
    issues exactly two writes, the booking insertion first and the save
    of the movie with the decremented counter second. *)
Theorem C8_create_failure_atomic tape u req db res ws :
  createBooking tz tape u req db = Some (res, ws) →
  (res_status res ≠ 201 → ws = [] ∧ commit ws db = db)
  ∧ (res = MovieNotFound ∨ res = ShowtimeNotFound ∨ res = CapacityExceeded
     ∨ (∃ l, res = SeatConflict l) → res_status res ≠ 201)
  ∧ (res_status res = 201 →
     ∃ b m i st,
       findActiveShowtime tz m (showtimeDate req) (showtimeTime req)
         = Some (i, st)
       ∧ movies db !! movieId req = Some m
       ∧ ws = [InsertBooking b;
               SaveMovie (movieId req)
                 (set_showtimes
                    (<[i := set_availableSeats
                              (availableSeats st - req_quantity req) st]>
                       (showtimes m)) m)]).
Proof.
  intros H. apply createBooking_status in H as [Hs ->].
  split_and!.
  - done.
  - intros [->|[->|[->|[l ->]]]]; simpl; lia.
  - intros E. done.
Qed.

Lemma elem_of_bookedSeats (bs : list Booking) (b : Booking) (x : string) :
  b ∈ bs → activeStatus b → x ∈ seats b →
  x ∈ bookedSeats bs (movie b) (date (showtime b)) (time (showtime b)).
Proof.
  intros Hb Ha Hx. unfold bookedSeats, existingBookings.
  apply list_elem_of_bind. exists b. split; [done|].
  apply list_elem_of_filter. done.
Qed.

Lemma bookedSeats_inv (bs : list Booking) (m : nat) (d : Z) (t : string)
  (x : string) :
  x ∈ bookedSeats bs m d t →
  ∃ b, b ∈ bs ∧ movie b = m ∧ showtime b = mkShowtimeRef d t
       ∧ activeStatus b ∧ x ∈ seats b.
Proof.
  unfold bookedSeats, existingBookings. intros H.
  apply list_elem_of_bind in H as (b & Hx & Hb).
  apply list_elem_of_filter in Hb as ((Hm & Hd & Ht & Ha) & Hb).
  exists b. split_and!; try done. destruct (showtime b); simpl in *. by subst.
Qed.

Lemma validCreate_true (req : CreateBookingReq) :
  validCreate req = true
  ↔ showtimeTime req ≠ "" ∧ req_seats req ≠ [] ∧ 1 <= req_quantity req
    ∧ lengthAtMost 500 (req_notes req) = true.
Proof.
  unfold validCreate. rewrite !andb_true_iff, bool_decide_eq_true, !Z.leb_le.
  destruct (req_seats req); simpl; intuition (try congruence; try lia).
Qed.

(** The guards of the create route on a request that has passed
    validation and has found its movie and its showtime. *)
Lemma createBooking_guards tape u req db m i st :
  validCreate req = true →
  movies db !! movieId req = Some m →
  findActiveShowtime tz m (showtimeDate req) (showtimeTime req)
    = Some (i, st) →
  let conflicting :=
    conflictingSeats (req_seats req)
      (bookedSeats (bookings db) (movieId req)
         (showtimeDate req) (showtimeTime req)) in
  (availableSeats st < req_quantity req →
     createBooking tz tape u req db = Some (CapacityExceeded, []))
  ∧ (req_quantity req <= availableSeats st → conflicting ≠ [] →
     createBooking tz tape u req db = Some (SeatConflict conflicting, []))
  ∧ (req_quantity req <= availableSeats st → conflicting = [] →
     createBooking tz tape u req db = Some (CreateFailed, [])).
Proof.
  intros Hv Hm Hf conflicting.
  unfold createBooking. rewrite Hv, Hm, Hf. simpl. fold conflicting.
  split_and!.
  - intros Hlt. apply Z.ltb_lt in Hlt. by rewrite Hlt.
  - intros Hle Hc. apply Z.ltb_ge in Hle. rewrite Hle.
    destruct conflicting eqn:E; [done|]. done.
  - intros Hle Hc. apply Z.ltb_ge in Hle. rewrite Hle, Hc. simpl.
    by rewrite Booking_create_no_code.
Qed.

(** The document of the create route, had it a code, is one that the
    schema accepts. *)
Lemma validateBooking_route_document u req st code :
  validCreate req = true → (0 <= price st)%Q → code ≠ "" →
  validateBooking
    (mkBooking (id u) (movieId req)
       (mkShowtimeRef (showtimeDate req) (showtimeTime req))
       (req_seats req) (req_quantity req)
       (price st * inject_Z (req_quantity req))%Q pending
       (req_paymentMethod req) pay_pending code (req_notes req)
       None None None) = true.
Proof.
  intros Hv Hp Hc. apply validCreate_true in Hv as (Ht & Hs & Hq & Hn).
  unfold validateBooking. simpl. rewrite !andb_true_iff.
  split_and!; try done.
  - by apply bool_decide_eq_true.
  - by apply bool_decide_eq_true.
  - by apply Z.leb_le.
  - apply Qle_bool_iff. apply Qmult_le_0_compat; [done|].
    unfold Qle, inject_Z. cbn [Qnum Qden]. lia.
  - by apply bool_decide_eq_true.
Qed.

(** C2: the create route never stores a booking.  A request that passes
    validation, finds its movie and an active showtime with seats enough,
    and names no booked seat, is handed to [Booking.create] without a
    booking code; the schema requires one, validation comes before the
    hook that would generate it, and the route answers 500 from its
    [catch], with no write: no booking is stored and no counter is
    lowered.  The document is refused for the code alone: with any code
    it passes the validators, and [Booking.create] stores it under a
    code of the hook.  So no create request at all is answered 201. *)
Theorem C2_create_is_refused tape u req db m i st :
  validCreate req = true →
  movies db !! movieId req = Some m →
  findActiveShowtime tz m (showtimeDate req) (showtimeTime req)
    = Some (i, st) →
  (0 <= price st)%Q →
  req_quantity req <= availableSeats st →
  conflictingSeats (req_seats req)
    (bookedSeats (bookings db) (movieId req)
       (showtimeDate req) (showtimeTime req)) = [] →
  let doc code :=
    mkBooking (id u) (movieId req)
      (mkShowtimeRef (showtimeDate req) (showtimeTime req))
      (req_seats req) (req_quantity req)
      (price st * inject_Z (req_quantity req))%Q pending
      (req_paymentMethod req) pay_pending code (req_notes req)
      None None None in
  createBooking tz tape u req db = Some (CreateFailed, [])
  ∧ res_status CreateFailed = 500
  ∧ commit [] db = db
  ∧ Booking_create tape (bookings db) (doc "") = Some Rejected
  ∧ (∀ code fresh,
        code ≠ "" → preSave tape (bookings db) = Some fresh →
        Booking_create tape (bookings db) (doc code)
        = Some (Stored (doc fresh)))
  ∧ (∀ tape' u' req' res ws,
        createBooking tz tape' u' req' db = Some (res, ws) →
        res_status res ≠ 201 ∧ ws = []).
Proof.
  intros Hv Hm Hf Hp Hq Hc doc.
  destruct (createBooking_guards tape u req db m i st Hv Hm Hf)
    as (_ & _ & Hfail).
  split_and!.
  - by apply Hfail.
  - done.
  - done.
  - by apply Booking_create_no_code.
  - intros code fresh Hcode Hfresh. unfold Booking_create.
    unfold doc at 1.
    rewrite (validateBooking_route_document u req st code Hv Hp Hcode).
    simpl. rewrite Hfresh. done.
  - intros tape' u' req' res ws. apply createBooking_status.
Qed.

(** C10: the create route never compares the quantity with the number
    of seat labels.  Validation asks for at least one seat label and a
    quantity of at least 1 (and notes of 500 characters at most); on a
    request that resolves to a movie and a showtime, the capacity guard
    reads the quantity only, the conflict guard reads the seat labels
    only, and a request that passes both is refused by no guard,
    whatever the two numbers: its document reaches [Booking.create],
    which refuses it for the missing booking code, and the route answers
    500 and writes nothing.  The Booking schema does not compare the
    two numbers either: a document that passes its validators passes
    them with any other non-empty seat list and any other quantity of
    at least 1. *)
Theorem C10_quantity_independent_of_seats tape u req db m i st :
  req_seats req ≠ [] → 1 <= req_quantity req → showtimeTime req ≠ "" →
  lengthAtMost 500 (req_notes req) = true →
  movies db !! movieId req = Some m →
  findActiveShowtime tz m (showtimeDate req) (showtimeTime req)
    = Some (i, st) →
  let conflicting :=
    conflictingSeats (req_seats req)
      (bookedSeats (bookings db) (movieId req)
         (showtimeDate req) (showtimeTime req)) in
  validCreate req = true
  ∧ (availableSeats st < req_quantity req →
     createBooking tz tape u req db = Some (CapacityExceeded, []))
  ∧ (req_quantity req <= availableSeats st → conflicting ≠ [] →
     createBooking tz tape u req db = Some (SeatConflict conflicting, []))
  ∧ (req_quantity req <= availableSeats st → conflicting = [] →
     createBooking tz tape u req db = Some (CreateFailed, []))
  ∧ (∀ b ss q,
       validateBooking b = true → ss ≠ [] → 1 <= q →
       validateBooking
         (mkBooking (user b) (movie b) (showtime b) ss q (totalAmount b)
            (status b) (paymentMethod b) (paymentStatus b) (bookingCode b)
            (notes b) (cancelledAt b) (cancelledBy b)
            (cancellationReason b)) = true).
Proof.
  intros Hs Hq Ht Hn Hm Hf conflicting.
  assert (Hv : validCreate req = true) by (by apply validCreate_true).
  destruct (createBooking_guards tape u req db m i st Hv Hm Hf)
    as (Hcap & Hconf & Hfail).
  split_and!; try done.
  - intros b ss q Hb Hss Hq'. unfold validateBooking in *. simpl.
    rewrite !andb_true_iff in *.
    destruct Hb as [[[[[[H1 _] _] H4] H5] H6] H7].
    split_and!; try done.
    + by apply bool_decide_eq_true.
    + by apply Z.leb_le.
Qed.
End CreateBooking.

(** ** Cancellation *)

Section Cancellation.
Variable tz : Z.

Lemma authorized_guard (u : User) (b : Booking) :
  bool_decide (user b ≠ id u) && bool_decide (role u ≠ role_admin) = false
  ↔ authorized u b.
Proof.
  unfold authorized. rewrite andb_false_iff, !bool_decide_eq_false.
  split.
  - intros [H|H]; [left | right]; by apply dec_stable.
  - intros [H|H]; [left | right]; by intros ?.
Qed.

Lemma activeStatus_guard (b : Booking) :
  activeStatus b ↔ status b ≠ cancelled ∧ status b ≠ completed.
Proof. unfold activeStatus. destruct (status b); intuition congruence. Qed.

Lemma length_reasonOr (reason : option string) (dflt : string) :
  lengthAtMost 200 reason = true → (String.length dflt <= 200)%nat →
  (String.length (reasonOr reason dflt) <= 200)%nat.
Proof.
  intros Hr Hd. unfold reasonOr. destruct reason as [r|]; [|done].
  case_bool_decide; [done|]. simpl in Hr. by apply Nat.leb_le in Hr.
Qed.

(** A valid document stays valid when it is marked cancelled with a
    reason of 200 characters at most. *)
Lemma validateBooking_markCancelled now u r b :
  (String.length r <= 200)%nat →
  validateBooking (markCancelled now u r b) = validateBooking b
  ∨ validateBooking b = false.
Proof.
  intros Hr. unfold validateBooking. simpl.
  apply Nat.leb_le in Hr. rewrite Hr.
  destruct (lengthAtMost 200 (cancellationReason b)).
  - by left.
  - right. by rewrite !andb_false_r.
Qed.

Lemma validateBooking_userCancelled now u reason b :
  validReason reason → validateBooking b = true →
  validateBooking (userCancelled now u reason b) = true.
Proof.
  intros Hr Hb. unfold userCancelled.
  destruct (validateBooking_markCancelled now u
              (reasonOr (JS.trim <$> reason) "Cancelled by user") b)
    as [->|E]; [|done|congruence].
  apply length_reasonOr; [done|]. simpl. lia.
Qed.

(** The outcomes of the cancel route, in the order of its guards. *)
Lemma cancelBooking_inv now u bid reason db res ws :
  cancelBooking tz now u bid reason db = (res, ws) →
  (ws = [] ∧
   (res = ValidationFailed ∧ ¬ validReason reason
    ∨ validReason reason ∧
      (res = BookingNotFound ∧ bookings db !! bid = None
       ∨ ∃ b, bookings db !! bid = Some b
              ∧ (res = Forbidden ∧ ¬ authorized u b
                 ∨ res = AlreadyCancelled ∧ status b = cancelled
                 ∨ res = AlreadyCompleted ∧ status b = completed
                 ∨ res = CancellationWindowExpired ∧ authorized u b
                   ∧ activeStatus b ∧ withinWindow tz now b = true
                 ∨ res = CancelFailed ∧ authorized u b ∧ activeStatus b
                   ∧ withinWindow tz now b = false
                   ∧ validateBooking b = false))))
  ∨ (∃ b b',
        validReason reason
        ∧ bookings db !! bid = Some b
        ∧ authorized u b ∧ activeStatus b ∧ withinWindow tz now b = false
        ∧ b' = userCancelled now u reason b
        ∧ validateBooking b' = true
        ∧ res = mkResponse 200 "Booking cancelled successfully" (Some b')
        ∧ ws = SaveBooking bid b' :: restoreSeats tz db b').
Proof.
  unfold cancelBooking. intros H.
  destruct (lengthAtMost 200 (JS.trim <$> reason)) eqn:Hr; simpl in H.
  2:{ left. simplify_eq. split; [done|]. left. split; [done|].
      unfold validReason. congruence. }
  assert (validReason reason) by exact Hr.
  destruct (bookings db !! bid) as [b|] eqn:Hb;
    [|left; simplify_eq; split; [done | right; split; [done | by left]]].
  destruct (bool_decide (user b ≠ id u) && bool_decide (role u ≠ role_admin))
    eqn:Ha.
  { left. simplify_eq. split; [done|]. right. split; [done|]. right.
    exists b. split; [done|].
    left. split; [done|]. intros Hau. apply authorized_guard in Hau.
    congruence. }
  apply authorized_guard in Ha.
  case_bool_decide as Hc.
  { left. simplify_eq. split; [done|]. right. split; [done|]. right.
    exists b. split; [done|]. right. left. done. }
  case_bool_decide as Hd.
  { left. simplify_eq. split; [done|]. right. split; [done|]. right.
    exists b. split; [done|]. right. right. left. done. }
  assert (activeStatus b) by (by apply activeStatus_guard).
  destruct (withinWindow tz now b) eqn:Hw.
  { left. simplify_eq. split; [done|]. right. split; [done|]. right.
    exists b. split; [done|]. do 3 right. left. done. }
  fold (userCancelled now u reason b) in H.
  destruct (validateBooking (userCancelled now u reason b)) eqn:Hv;
    simpl in H.
  - right. simplify_eq. eexists b, _. split_and!; done.
  - left. simplify_eq. split; [done|]. right. split; [done|]. right.
    exists b. split; [done|]. do 4 right. split_and!; try done.
    destruct (validateBooking b) eqn:Hvb; [|done].
    by rewrite validateBooking_userCancelled in Hv.
Qed.

Lemma cancelBooking_ok now u bid reason db b :
  bookings db !! bid = Some b → authorized u b → activeStatus b →
  validateBooking b = true → validReason reason →
  withinWindow tz now b = false →
  let b' := userCancelled now u reason b in
  cancelBooking tz now u bid reason db
  = (mkResponse 200 "Booking cancelled successfully" (Some b'),
     SaveBooking bid b' :: restoreSeats tz db b').
Proof.
  intros Hb Ha Hs Hv Hr Hw. unfold cancelBooking.
  unfold validReason in Hr. rewrite Hr. simpl. rewrite Hb.
  apply authorized_guard in Ha. rewrite Ha.
  apply activeStatus_guard in Hs as [Hc Hd].
  rewrite !bool_decide_eq_false_2 by done. rewrite Hw.
  fold (userCancelled now u reason b).
  by rewrite validateBooking_userCancelled.
Qed.


(** The writes of the cancel route: none, or the save of the booking and
    the seat restoration. *)
Lemma cancelBooking_writes now u bid reason db :
  (cancelBooking tz now u bid reason db).2 = []
  ∨ ∃ b, bookings db !! bid = Some b ∧ activeStatus b
         ∧ (cancelBooking tz now u bid reason db).2
           = SaveBooking bid (userCancelled now u reason b)
               :: restoreSeats tz db (userCancelled now u reason b).
Proof.
  destruct (cancelBooking tz now u bid reason db) as [res ws] eqn:Hc.
  apply cancelBooking_inv in Hc as [[-> _]|(b&b'&_&Hb&_&Ha&_&->&_&_&->)].
  - by left.
  - right. exists b. done.
Qed.

(** The writes of the seat restoration: one save of the movie, or none. *)
Lemma restoreSeats_cases db b :
  (restoreSeats tz db b = []
   ∧ (movies db !! movie b = None
      ∨ ∃ m, movies db !! movie b = Some m
             ∧ findShowtime tz m (date (showtime b)) (time (showtime b))
               = None))
  ∨ (∃ m i st,
        movies db !! movie b = Some m
        ∧ findShowtime tz m (date (showtime b)) (time (showtime b))
          = Some (i, st)
        ∧ restoreSeats tz db b
          = [SaveMovie (movie b)
               (set_showtimes
                  (<[i := set_availableSeats (availableSeats st + quantity b) st]>
                     (showtimes m)) m)]).
Proof.
  unfold restoreSeats.
  destruct (movies db !! movie b) as [m|] eqn:Hm; [|left; eauto].
  destruct (findShowtime tz m _ _) as [[i st]|] eqn:Hf.
  - right. exists m, i, st. done.
  - left. split; [done|]. right. eauto.
Qed.

Lemma bookings_commit_restore db0 db b :
  bookings (commit (restoreSeats tz db0 b) db) = bookings db.
Proof.
  destruct (restoreSeats_cases db0 b) as [[-> _]|(m&i&st&_&_&->)]; done.
Qed.

Lemma bookings_commit_cancel db0 db bid b' b :
  bookings (commit (SaveBooking bid b' :: restoreSeats tz db0 b) db)
  = <[bid := b']> (bookings db).
Proof. unfold commit. simpl. apply bookings_commit_restore. Qed.

Lemma movies_commit_cancel db0 db bid b' b :
  movies (commit (SaveBooking bid b' :: restoreSeats tz db0 b) db)
  = movies (commit (restoreSeats tz db0 b) db).
Proof.
  destruct (restoreSeats_cases db0 b) as [[-> _]|(m&i&st&_&_&->)]; done.
Qed.

(** The window guard, on integers: [hoursDiff < 2] says that fewer than
    7 200 000 ms separate [now] from the showtime moment. *)
Lemma hours_lt_2 (d : Z) :
  (inject_Z d / inject_Z (1000 * 60 * 60) < 2)%Q ↔ d < 2 * JS.msPerHour.
Proof.
  change (1000 * 60 * 60) with 3600000.
  unfold Qlt, Qdiv, Qmult, Qinv, inject_Z, JS.msPerHour. cbn [Qnum Qden].
  change (Z.pos (1 * 3600000)) with 3600000. lia.
Qed.

Lemma withinWindow_Some now b T :
  showtimeDateTime tz b = Some T →
  withinWindow tz now b = true ↔ T - now < 2 * JS.msPerHour.
Proof.
  intros HT. unfold withinWindow, hoursDiff, timeDiff. rewrite HT. simpl.
  destruct (Qlt_le_dec _ 2) as [Hlt|Hle].
  - apply (proj1 (hours_lt_2 _)) in Hlt. split; [by intros _ | done].
  - split; [done|]. intros Hlt. apply (proj2 (hours_lt_2 _)) in Hlt.
    exfalso. by eapply Qle_not_lt.
Qed.

Lemma withinWindow_None now b :
  showtimeDateTime tz b = None → withinWindow tz now b = false.
Proof.
  intros HT. unfold withinWindow, hoursDiff, timeDiff. by rewrite HT.
Qed.




(** The showtime moment of a label whose first two fields read as the
    integers [h] and [m], on a valid stored date. *)
Lemma showtimeDateTime_fields b hours minutes more h m T :
  Z.abs tz <= JS.msPerDay →
  Z.abs (date (showtime b)) <= 8640000000000000 →
  JS.split ":" (time (showtime b)) = hours :: minutes :: more →
  JS.parseInt hours = JS.Int h → JS.parseInt minutes = JS.Int m →
  Z.abs h <= 1000000 → Z.abs m <= 1000000 →
  showtimeDateTime tz b = Some T →
  T = JS.Day (date (showtime b) + tz) * JS.msPerDay
      + h * JS.msPerHour + m * JS.msPerMinute - tz.
Proof.
  intros Htz Hd Hs Hh Hm Hhb Hmb HT. unfold showtimeDateTime in HT.
  rewrite Hs in HT. simpl in HT. rewrite Hh, Hm in HT.
  rewrite setHours_exact in HT by done.
  unfold JS.TimeClip in HT. by case_match; simplify_eq.
Qed.


(** C5: for a pending or confirmed booking (a stored document that
    passes the schema) whose time label yields a showtime moment [T],
    a cancellation with a reason of 200 characters at most, by any
    authorized caller, owner or admin alike, is refused with the window
    error and writes nothing when fewer than two hours separate [now]
    from [T], and passes the window guard (the booking is cancelled)
    when exactly two hours or more remain.  [T] is the stored date
    combined with the label: for a label whose first two ':' fields
    read as the integers [h] and [m], it is the start of the local
    calendar day of the stored date plus [h] hours and [m] minutes. *)
Theorem C5_window_boundary now u bid reason db b T :
  bookings db !! bid = Some b → activeStatus b → authorized u b →
  validateBooking b = true → validReason reason →
  showtimeDateTime tz b = Some T →
  (T - now < 2 * JS.msPerHour →
     cancelBooking tz now u bid reason db = (CancellationWindowExpired, []))
  ∧ (2 * JS.msPerHour <= T - now →
     ∃ b', cancelBooking tz now u bid reason db
           = (mkResponse 200 "Booking cancelled successfully" (Some b'),
              SaveBooking bid b' :: restoreSeats tz db b')
           ∧ status b' = cancelled)
  ∧ (∀ hours minutes more h m,
       Z.abs tz <= JS.msPerDay →
       Z.abs (date (showtime b)) <= 8640000000000000 →
       JS.split ":" (time (showtime b)) = hours :: minutes :: more →
       JS.parseInt hours = JS.Int h → JS.parseInt minutes = JS.Int m →
       Z.abs h <= 1000000 → Z.abs m <= 1000000 →
       T = JS.Day (date (showtime b) + tz) * JS.msPerDay
           + h * JS.msPerHour + m * JS.msPerMinute - tz).
Proof.
  intros Hb Hs Ha Hv Hr HT. split_and!.
  - intros Hlt. apply (withinWindow_Some now b T HT) in Hlt.
    unfold cancelBooking. unfold validReason in Hr. rewrite Hr. simpl.
    rewrite Hb.
    apply authorized_guard in Ha. rewrite Ha.
    apply activeStatus_guard in Hs as [Hc Hd].
    rewrite !bool_decide_eq_false_2 by done. by rewrite Hlt.
  - intros Hge.
    assert (Hw : withinWindow tz now b = false).
    { destruct (withinWindow tz now b) eqn:E; [|done].
      apply (withinWindow_Some now b T HT) in E. lia. }
    eexists. split; [by apply cancelBooking_ok|]. done.
  - intros hours minutes more h m Htz Hd Hsp Hh Hm Hhb Hmb.
    by eapply showtimeDateTime_fields.
Qed.
End Cancellation.

(** ** Seat exclusivity *)

Section Exclusivity.
Variable tz : Z.

(** The showtime lookup reads the request's date through its calendar
    day only. *)
Lemma findActiveShowtime_same_day m d1 d2 t :
  JS.toDateString tz d2 = JS.toDateString tz d1 →
  findActiveShowtime tz m d2 t = findActiveShowtime tz m d1 t.
Proof.
  intros Hd. unfold findActiveShowtime. apply list_find_ext.
  intros st. unfold sameShowtime. by rewrite Hd.
Qed.

Lemma conflictingSeats_nil requested booked x :
  conflictingSeats requested booked = [] → x ∈ requested → x ∉ booked.
Proof.
  unfold conflictingSeats. intros Hnil Hx Hb.
  assert (Hin : x ∈ filter (λ seat, seat ∈ booked) requested)
    by (by apply list_elem_of_filter).
  rewrite Hnil in Hin. by apply not_elem_of_nil in Hin.
Qed.


Lemma elem_of_bookedSeats_iff (bs : list Booking) (m : nat) (d : Z)
  (t x : string) :
  x ∈ bookedSeats bs m d t
  ↔ ∃ b, b ∈ bs ∧ activeStatus b ∧ movie b = m
         ∧ showtime b = mkShowtimeRef d t ∧ x ∈ seats b.
Proof.
  split.
  - intros H. apply bookedSeats_inv in H as (b & ? & ? & ? & ? & ?).
    exists b. done.
  - intros (b & Hb & Ha & <- & Hs & Hx).
    pose proof (elem_of_bookedSeats bs b x Hb Ha Hx) as Hk.
    by rewrite Hs in Hk.
Qed.






(** C4: the showtime lookup of the create route
    compares calendar days while its conflict query compares stored
    timestamps.  So for a pending or confirmed booking that holds a seat
    and a request for that seat with the booking's movie and time label
    and another timestamp of the same calendar day, the request
    resolves to the showtime entry that the booking's own timestamp
    resolves to, the bookings that its conflict query loads do not
    include that booking, the seat is not in its booked set unless a
    booking stored with the request's own timestamp holds it, and, when
    the conflict query finds none of the requested seats and the
    showtime has seats enough, no guard of the route refuses the
    request: its document reaches [Booking.create], which refuses it
    for the missing booking code, and the route answers 500 and writes
    nothing. *)
Theorem C4_same_day_other_timestamp_not_seen tape u req db b m i st x :
  b ∈ bookings db → activeStatus b → movie b = movieId req →
  time (showtime b) = showtimeTime req →
  JS.toDateString tz (date (showtime b))
  = JS.toDateString tz (showtimeDate req) →
  date (showtime b) ≠ showtimeDate req →
  x ∈ seats b → x ∈ req_seats req →
  movies db !! movieId req = Some m →
  findActiveShowtime tz m (showtimeDate req) (showtimeTime req)
    = Some (i, st) →
  let booked :=
    bookedSeats (bookings db) (movieId req)
      (showtimeDate req) (showtimeTime req) in
  findActiveShowtime tz m (date (showtime b)) (time (showtime b))
  = Some (i, st)
  ∧ (b ∉ existingBookings (bookings db) (movieId req)
           (showtimeDate req) (showtimeTime req))
  ∧ ((∀ b', b' ∈ bookings db → activeStatus b' →
            movie b' = movieId req →
            showtime b'
            = mkShowtimeRef (showtimeDate req) (showtimeTime req) →
            x ∉ seats b') →
     x ∉ booked)
  ∧ (validCreate req = true →
     req_quantity req <= availableSeats st →
     conflictingSeats (req_seats req) booked = [] →
     (x ∉ booked)
     ∧ createBooking tz tape u req db = Some (CreateFailed, [])).
Proof.
  intros Hb Ha Hm Ht Hday Hne Hx Hxr Hmov Hf booked.
  split_and!.
  - rewrite Ht. by rewrite (findActiveShowtime_same_day m _ _ _ Hday).
  - unfold existingBookings. rewrite list_elem_of_filter.
    intros [(_ & Hd & _) _]. done.
  - intros Hfree Hin. unfold booked in Hin.
    apply elem_of_bookedSeats_iff in Hin as (b' & Hb' & Ha' & Hm' & Hs' & Hx').
    by apply (Hfree b').
  - intros Hv Hq Hc. split.
    + by eapply conflictingSeats_nil.
    + destruct (createBooking_guards tz tape u req db m i st Hv Hmov Hf)
        as (_ & _ & Hfail).
      by apply Hfail.
Qed.
End Exclusivity.

(** ** Bounds of the seat counters *)

Section SeatBounds.
Variable tz : Z.






(** The writes of the showtime update: none, or the save of the movie
    with the entry updated. *)
Lemma updateShowtime_writes mid sid body db :
  (updateShowtime mid sid body db).2 = []
  ∨ ∃ m i st,
      forallb validUpdate body = true
      ∧ movies db !! mid = Some m ∧ showtimeById m sid = Some (i, st)
      ∧ (updateShowtime mid sid body db).2
        = [SaveMovie mid
             (set_showtimes (<[i := foldl applyUpdate st body]> (showtimes m))
                m)].
Proof.
  unfold updateShowtime.
  destruct (forallb validUpdate body) eqn:Hv; [|by left]. simpl.
  destruct (movies db !! mid) as [m|] eqn:Hm; [|by left].
  destruct (showtimeById m sid) as [[i st]|] eqn:Hf; [|by left].
  destruct (existsb _ _ && _); [by left|].
  right. exists m, i, st. done.
Qed.


Lemma movies_cancel_cases now u bid reason db :
  let db' := commit (cancelBooking tz now u bid reason db).2 db in
  movies db' = movies db
  ∨ ∃ b m i st,
      bookings db !! bid = Some b
      ∧ movies db !! movie b = Some m
      ∧ findShowtime tz m (date (showtime b)) (time (showtime b)) = Some (i, st)
      ∧ movies db'
        = <[movie b := set_showtimes
                         (<[i := set_availableSeats
                                   (availableSeats st + quantity b) st]>
                            (showtimes m)) m]> (movies db).
Proof.
  intros db'. subst db'.
  destruct (cancelBooking_writes tz now u bid reason db)
    as [->|(b & Hb & Ha & ->)]; [by left|].
  rewrite movies_commit_cancel.
  destruct (restoreSeats_cases tz db (userCancelled now u reason b))
    as [[-> _]|(m&i&st&Hm&Hf&->)]; [by left|].
  right. exists b, m, i, st. done.
Qed.


End SeatBounds.

(** ** Lifecycle of a booking *)

Section Lifecycle.
Variable tz : Z.

Lemma bookings_updateShowtime mid sid body db :
  bookings (commit (updateShowtime mid sid body db).2 db) = bookings db.
Proof.
  destruct (updateShowtime_writes mid sid body db)
    as [->|(m & i & st & _ & _ & _ & ->)]; done.
Qed.

Lemma bookings_addShowtime mid sid d t p total db :
  bookings (commit (addShowtime tz mid sid d t p total db).2 db) = bookings db.
Proof.
  unfold addShowtime. destruct (negb _); [done|].
  destruct (movies db !! mid) as [m|]; [|done].
  by destruct (findShowtime tz m d t).
Qed.

Lemma bookings_deleteShowtime mid sid db :
  bookings (commit (deleteShowtime mid sid db).2 db) = bookings db.
Proof.
  unfold deleteShowtime. destruct (movies db !! mid) as [m|]; [|done].
  by destruct (showtimeById m sid) as [[i st]|].
Qed.

Lemma bookings_create tape u req db res ws :
  createBooking tz tape u req db = Some (res, ws) →
  bookings (commit ws db) = bookings db.
Proof. intros H. by apply createBooking_status in H as [_ ->]. Qed.

(** The booking as the admin status route saves it. *)
Lemma updateBookingStatus_cases now u bid s reason db :
  let saved b :=
    if bool_decide (s = cancelled)
    then markCancelled now u (reasonOr reason "Cancelled by admin")
           (set_status s b)
    else set_status s b in
  (bookings db !! bid = None
   ∧ updateBookingStatus now u bid s reason db
     = (respond 404 "Booking not found", []))
  ∨ (∃ b, bookings db !! bid = Some b
          ∧ validateBooking (saved b) = false
          ∧ updateBookingStatus now u bid s reason db
            = (respond 500 "Server error while updating booking status", []))
  ∨ (∃ b, bookings db !! bid = Some b
          ∧ validateBooking (saved b) = true
          ∧ updateBookingStatus now u bid s reason db
            = (mkResponse 200 "Booking status updated successfully"
                 (Some (saved b)),
               [SaveBooking bid (saved b)])).
Proof.
  intros saved. unfold updateBookingStatus.
  destruct (bookings db !! bid) as [b|] eqn:Hb; [|by left]. right.
  fold (saved b).
  destruct (validateBooking (saved b)) eqn:Hv; simpl.
  - right. exists b. done.
  - left. exists b. done.
Qed.

Lemma validateBooking_set_status s b :
  validateBooking (set_status s b) = validateBooking b.
Proof. done. Qed.



End Lifecycle.

(** ** Booking codes *)

Section BookingCodes.

Lemma length_append (a b : string) :
  String.length (a +:+ b) = (String.length a + String.length b)%nat.
Proof. induction a as [|c a IH]; simpl; [done | by rewrite IH]. Qed.

Lemma list_ascii_append (a b : string) :
  list_ascii_of_string (a +:+ b)
  = (list_ascii_of_string a ++ list_ascii_of_string b)%list.
Proof. induction a as [|c a IH]; simpl; [done | by rewrite IH]. Qed.

(** The characters of [chars] are the 26 capitals and the 10 digits. *)
Lemma charAt_chars (k : Z) :
  0 <= k < 36 →
  ∃ c, JS.charAt chars k = String c "" ∧ inAlphabet c.
Proof.
  intros Hk. unfold JS.charAt.
  destruct (k <? 0) eqn:E; [apply Z.ltb_lt in E; lia|].
  assert (Hn : (Z.to_nat k < 36)%nat) by lia.
  generalize dependent (Z.to_nat k). intros n Hn.
  do 36 (destruct n as [|n];
         [eexists; split; [reflexivity | unfold inAlphabet; vm_compute; lia]|]).
  lia.
Qed.

(** [Math.floor(Math.random() * chars.length)] is an index of [chars]. *)
Lemma floor_index (r : Q) :
  unitInterval r →
  0 <= Qfloor (r * inject_Z (Z.of_nat (String.length chars))) < 36.
Proof.
  intros [Hlo Hhi]. change (Z.of_nat (String.length chars)) with 36.
  split.
  - rewrite <- (Qfloor_Z 0). apply Qfloor_resp_le.
    change (inject_Z 0) with (0 * inject_Z 36)%Q.
    apply Qmult_le_compat_r; [done|]. done.
  - rewrite Zlt_Qlt. eapply Qle_lt_trans; [apply Qfloor_le|].
    change (inject_Z 36) with (1 * inject_Z 36)%Q at 2.
    apply Qmult_lt_compat_r; [done|]. done.
Qed.

Lemma generateCode_loop_length n result tape c tape' :
  generateCode_loop n result tape = Some (c, tape') →
  length tape = (n + length tape')%nat.
Proof.
  revert result tape. induction n as [|n IH]; intros result tape H; simpl in H.
  - by simplify_eq.
  - destruct tape as [|r tape]; [done|]. apply IH in H. simpl. lia.
Qed.

Lemma generateCode_loop_spec n result tape c tape' :
  Forall unitInterval tape →
  generateCode_loop n result tape = Some (c, tape') →
  String.length c = (String.length result + n)%nat
  ∧ (Forall inAlphabet (list_ascii_of_string result) →
     Forall inAlphabet (list_ascii_of_string c))
  ∧ Forall unitInterval tape'
  ∧ length tape = (n + length tape')%nat.
Proof.
  revert result tape. induction n as [|n IH]; intros result tape Ht H.
  - simpl in H. simplify_eq. split_and!; try done; lia.
  - cbn [generateCode_loop] in H. destruct tape as [|r tape]; [done|].
    apply Forall_cons in Ht as [Hr Ht].
    destruct (charAt_chars _ (floor_index r Hr)) as (a & Ha & Hin).
    apply IH in H as (Hlen & Halpha & Ht' & Hl); [|done].
    rewrite length_append, Ha in Hlen. simpl in Hlen.
    split_and!; try done; [lia | | simpl; lia].
    intros Hres. apply Halpha.
    rewrite list_ascii_append, Ha. simpl.
    apply Forall_app. split; [done|]. by apply Forall_singleton.
Qed.

Lemma generateCode_wellFormed tape c tape' :
  Forall unitInterval tape → generateCode tape = Some (c, tape') →
  wellFormedCode c ∧ Forall unitInterval tape'.
Proof.
  intros Ht H. apply generateCode_loop_spec in H as (Hlen & Ha & Ht' & _);
    [|done].
  split; [split|]; [done | by apply Ha | done].
Qed.

Lemma findOne_None bs c :
  findOne_bookingCode bs c = None ↔ c ∉ bookingCode <$> bs.
Proof.
  unfold findOne_bookingCode. rewrite fmap_None, list_find_None.
  rewrite list_elem_of_fmap, Forall_forall. split.
  - intros H (b & E & Hb). by apply (H b).
  - intros H b Hb E. apply H. by exists b.
Qed.

(** One turn of the [while] loop: the candidate is accepted when no
    booking bears it, and otherwise a new one is drawn. *)
Lemma uniqueCode_loop_turn fuel bs tape c tape' :
  generateCode tape = Some (c, tape') →
  uniqueCode_loop (S fuel) bs tape
  = if decide (c ∈ bookingCode <$> bs)
    then uniqueCode_loop fuel bs tape'
    else Some c.
Proof.
  intros Hg. simpl. rewrite Hg.
  destruct (findOne_bookingCode bs c) as [b|] eqn:Hf.
  - rewrite decide_True; [done|].
    destruct (decide (c ∈ bookingCode <$> bs)) as [|Hn]; [done|].
    apply findOne_None in Hn. congruence.
  - apply findOne_None in Hf. by rewrite decide_False.
Qed.

Lemma uniqueCode_loop_fresh fuel bs tape c :
  uniqueCode_loop fuel bs tape = Some c → c ∉ bookingCode <$> bs.
Proof.
  revert tape. induction fuel as [|fuel IH]; intros tape H; [done|].
  simpl in H. destruct (generateCode tape) as [[c' tape']|]; [|done].
  destruct (findOne_bookingCode bs c') as [b|] eqn:Hf.
  - by eapply IH.
  - simplify_eq. by apply findOne_None.
Qed.

Lemma uniqueCode_loop_wellFormed fuel bs tape c :
  Forall unitInterval tape →
  uniqueCode_loop fuel bs tape = Some c → wellFormedCode c.
Proof.
  revert tape. induction fuel as [|fuel IH]; intros tape Ht H; [done|].
  simpl in H. destruct (generateCode tape) as [[c' tape']|] eqn:Hg; [|done].
  apply generateCode_wellFormed in Hg as [Hwf Ht']; [|done].
  destruct (findOne_bookingCode bs c') as [b|] eqn:Hf.
  - by eapply IH.
  - by simplify_eq.
Qed.

(** The fuel of [preSave] never runs out before the tape does. *)
Lemma uniqueCode_loop_fuel fuel bs tape :
  (length tape <= fuel)%nat →
  uniqueCode_loop fuel bs tape = uniqueCode_loop (length tape) bs tape.
Proof.
  revert tape. induction fuel as [fuel IH] using lt_wf_ind. intros tape Hle.
  destruct fuel as [|f].
  { destruct tape; [done | simpl in Hle; lia]. }
  destruct tape as [|r tape]; [done|].
  cbn [length uniqueCode_loop].
  destruct (generateCode (r :: tape)) as [[c tape']|] eqn:Hg; [|done].
  destruct (findOne_bookingCode bs c); [|done].
  assert (Hlen : length (r :: tape) = (8 + length tape')%nat)
    by (by eapply generateCode_loop_length).
  simpl in Hlen, Hle.
  rewrite (IH f) by lia. rewrite (IH (length tape)) by lia. done.
Qed.

(** The loop without fuel: the first candidate is returned if no booking
    bears it; otherwise the hook goes on with the rest of the tape. *)
Lemma preSave_unfold tape bs :
  preSave tape bs
  = match generateCode tape with
    | None => None
    | Some (c, tape') =>
        if decide (c ∈ bookingCode <$> bs) then preSave tape' bs else Some c
    end.
Proof.
  unfold preSave. destruct tape as [|r tape]; [done|].
  cbn [length]. destruct (generateCode (r :: tape)) as [[c tape']|] eqn:Hg.
  - rewrite (uniqueCode_loop_turn _ _ _ _ _ Hg). case_decide; [|done].
    apply uniqueCode_loop_fuel.
    apply generateCode_loop_length in Hg. simpl in Hg. lia.
  - simpl. by rewrite Hg.
Qed.

Variable tz : Z.

Lemma codes_insert_same (bs : list Booking) (bid : nat) b b' :
  bs !! bid = Some b → bookingCode b' = bookingCode b →
  bookingCode <$> <[bid := b']> bs = bookingCode <$> bs.
Proof.
  intros Hb Hc. rewrite list_fmap_insert. apply list_insert_id.
  by rewrite list_lookup_fmap, Hb, Hc.
Qed.

(** No route changes the codes in the store. *)
Lemma codes_handle r db res ws :
  handle tz r db = Some (res, ws) → codes (commit ws db) = codes db.
Proof.
  intros H. unfold codes.
  destruct r as [tape u req|now u bid reason|now u bid s reason
                |mid sid body|mid sid d t p total|mid sid]; simpl in H.
  - by apply bookings_create in H as ->.
  - injection H as H.
    replace ws with (cancelBooking tz now u bid reason db).2
      by (by rewrite H).
    destruct (cancelBooking_writes tz now u bid reason db)
      as [->|(b0 & Hb0 & Hact & ->)]; [done|].
    rewrite bookings_commit_cancel.
    by apply (codes_insert_same _ _ b0).
  - injection H as H.
    destruct (updateBookingStatus_cases now u bid s reason db)
      as [[_ E]|[(b0 & _ & _ & E)|(b0 & Hb0 & _ & E)]];
      rewrite E in H; simplify_eq; try done.
    simpl. apply (codes_insert_same _ _ b0); [done|]. by case_bool_decide.
  - injection H as H.
    replace ws with (updateShowtime mid sid body db).2 by (by rewrite H).
    by rewrite bookings_updateShowtime.
  - injection H as H.
    replace ws with (addShowtime tz mid sid d t p total db).2 by (by rewrite H).
    by rewrite bookings_addShowtime.
  - injection H as H.
    replace ws with (deleteShowtime mid sid db).2 by (by rewrite H).
    by rewrite bookings_deleteShowtime.
Qed.

Lemma Booking_create_Stored tape bs doc b :
  Booking_create tape bs doc = Some (Stored b) →
  validateBooking doc = true
  ∧ preSave tape bs = Some (bookingCode b)
  ∧ b = set_bookingCode (bookingCode b) doc.
Proof.
  unfold Booking_create. intros H.
  destruct (validateBooking doc); [|done]. simpl in H.
  destruct (preSave tape bs) as [code|]; [|done]. simpl in H.
  by simplify_eq.
Qed.

(** Eight values of [Math.random] give a candidate. *)
Lemma generateCode_loop_total n result tape :
  (n <= length tape)%nat →
  ∃ c tape', generateCode_loop n result tape = Some (c, tape').
Proof.
  revert result tape. induction n as [|n IH]; intros result tape Hn.
  - by eexists _, _.
  - destruct tape as [|r tape]; simpl in Hn; [lia|].
    cbn [generateCode_loop]. apply IH. lia.
Qed.

Lemma created_codes bs bs' :
  created bs bs' → NoDup (bookingCode <$> bs) →
  ∃ new,
    bs' = (bs ++ new)%list
    ∧ NoDup (bookingCode <$> bs')
    ∧ Forall (λ b, wellFormedCode (bookingCode b)) new.
Proof.
  intros Hc Hnd. induction Hc as [|tape doc code bs' Hc IH Ht Hp].
  - exists []. by rewrite app_nil_r.
  - destruct IH as (new & -> & Hnd' & Hwf).
    exists (new ++ [set_bookingCode code doc])%list. split_and!.
    + by rewrite app_assoc.
    + rewrite fmap_app. apply NoDup_app. split_and!.
      * done.
      * intros c Hin Hin'. simpl in Hin'.
        apply list_elem_of_singleton in Hin' as ->.
        by apply uniqueCode_loop_fresh in Hp.
      * apply NoDup_singleton.
    + apply Forall_app. split; [done|]. apply Forall_singleton.
      by eapply uniqueCode_loop_wellFormed.
Qed.

(** C9: the hook alone.  Every code that the hook returns on values of
    [Math.random] in [0, 1) has exactly eight characters, each a capital
    letter or a digit; the hook returns a code only if no stored booking
    bears it; each turn of its loop draws a candidate from eight values,
    accepts it on that condition and draws again otherwise, so it
    returns as soon as a candidate is free.  So when the hook sets the
    code of any number of new documents that are stored one after the
    other in a collection whose codes are distinct, the codes of the
    collection are distinct again and the new codes have that form.
    [Booking.create] stores a document under the code of the hook, and
    no route changes the code of a booking or adds one. *)
Theorem C9_booking_codes bs bs' :
  created bs bs' → NoDup (bookingCode <$> bs) →
  (∃ new,
      bs' = (bs ++ new)%list
      ∧ NoDup (bookingCode <$> bs')
      ∧ Forall (λ b, wellFormedCode (bookingCode b)) new)
  ∧ (∀ i j b1 b2,
      bs' !! i = Some b1 → bs' !! j = Some b2 →
      bookingCode b1 = bookingCode b2 → i = j)
  ∧ (∀ tape bs code,
      preSave tape bs = Some code →
      (code ∉ bookingCode <$> bs)
      ∧ (Forall unitInterval tape → wellFormedCode code))
  ∧ (∀ tape bs,
      preSave tape bs
      = match generateCode tape with
        | None => None
        | Some (c, tape') =>
            if decide (c ∈ bookingCode <$> bs) then preSave tape' bs
            else Some c
        end)
  ∧ (∀ tape bs,
      (8 <= length tape)%nat →
      ∃ c tape',
        generateCode tape = Some (c, tape')
        ∧ length tape = (8 + length tape')%nat
        ∧ (c ∉ bookingCode <$> bs → preSave tape bs = Some c)
        ∧ (c ∈ bookingCode <$> bs → preSave tape bs = preSave tape' bs))
  ∧ (∀ tape bs doc b,
      Booking_create tape bs doc = Some (Stored b) →
      preSave tape bs = Some (bookingCode b)
      ∧ b = set_bookingCode (bookingCode b) doc)
  ∧ (∀ r db db', step tz r db = Some db' → codes db' = codes db).
Proof.
  intros Hc Hnd.
  destruct (created_codes bs bs' Hc Hnd) as (new & E & Hnd' & Hwf).
  split_and!.
  - by exists new.
  - intros i j b1 b2 Hi Hj Hcode.
    eapply (NoDup_lookup (bookingCode <$> bs') i j (bookingCode b1));
      [done | |]; rewrite list_lookup_fmap.
    + by rewrite Hi.
    + by rewrite Hj, Hcode.
  - intros tape bs0 code Hp. split.
    + by eapply uniqueCode_loop_fresh.
    + intros Ht. by eapply uniqueCode_loop_wellFormed.
  - apply preSave_unfold.
  - intros tape bs0 Hlen.
    destruct (generateCode_loop_total 8 "" tape Hlen) as (c & tape' & Hg).
    exists c, tape'. split; [exact Hg|].
    split; [by eapply generateCode_loop_length|].
    rewrite (preSave_unfold tape bs0). unfold generateCode. rewrite Hg.
    split; intros Hin; by case_decide.
  - intros tape bs0 doc b Hb.
    by apply Booking_create_Stored in Hb as (_ & Hp & Hd).
  - intros r db db' H. unfold step in H.
    destruct (handle tz r db) as [[res ws]|] eqn:Hh; [|done].
    simpl in H. simplify_eq. by eapply codes_handle.
Qed.
End BookingCodes.

(** ** Showtime maintenance *)

Section Showtimes.
Variable tz : Z.

Lemma sameShowtime_day d1 d2 t st :
  JS.toDateString tz d2 = JS.toDateString tz d1 →
  sameShowtime tz d2 t st ↔ sameShowtime tz d1 t st.
Proof. intros E. unfold sameShowtime. by rewrite E. Qed.

Lemma findShowtime_same_day m d1 d2 t :
  JS.toDateString tz d2 = JS.toDateString tz d1 →
  findShowtime tz m d2 t = findShowtime tz m d1 t.
Proof.
  intros E. unfold findShowtime. apply list_find_ext.
  intros st. by apply sameShowtime_day.
Qed.

Lemma addShowtime_valid t p total :
  t ≠ "" → (0 <= p)%Q → 1 <= total →
  negb (bool_decide (t ≠ "") && Qle_bool 0 p && (1 <=? total)) = false.
Proof.
  intros Ht Hp Htot. apply negb_false_iff. rewrite !andb_true_iff. split_and!.
  - by apply bool_decide_eq_true.
  - by apply Qle_bool_iff.
  - by apply Z.leb_le.
Qed.

(** X1: adding a showtime to a movie.  With a valid body, the route
    refuses (400, no write) exactly when the movie already has an entry,
    active or not, on the same calendar day with the same time label.
    Otherwise it appends one entry, active, with [availableSeats] equal to
    [totalSeats]; from then on the create route's lookup resolves every
    timestamp of that day with that label to the new entry, and a second
    add for that day and label is refused. *)
Theorem X1_addShowtime_effect db mid sid d t p total m :
  t ≠ "" → (0 <= p)%Q → 1 <= total →
  movies db !! mid = Some m →
  (is_Some (findShowtime tz m d t) →
     addShowtime tz mid sid d t p total db
     = (respond 400 "Showtime already exists for this date and time", []))
  ∧ (findShowtime tz m d t = None →
     let new := mkShowtime sid d t p total total true in
     let m' := set_showtimes (showtimes m ++ [new]) m in
     addShowtime tz mid sid d t p total db
     = (respond 201 "Showtime added successfully", [SaveMovie mid m'])
     ∧ ∀ d', JS.toDateString tz d' = JS.toDateString tz d →
         findActiveShowtime tz m' d' t = Some (length (showtimes m), new)
         ∧ ∀ sid' p' total',
             (0 <= p')%Q → 1 <= total' →
             addShowtime tz mid sid' d' t p' total'
               (commit [SaveMovie mid m'] db)
             = (respond 400 "Showtime already exists for this date and time",
                [])).
Proof.
  intros Ht Hp Htot Hm. split.
  - intros [[i st] Hf]. unfold addShowtime.
    rewrite (addShowtime_valid t p total Ht Hp Htot), Hm, Hf. done.
  - intros Hf new m'. split.
    { unfold addShowtime.
      rewrite (addShowtime_valid t p total Ht Hp Htot), Hm, Hf. done. }
    intros d' Hd'.
    assert (Hnew : sameShowtime tz d' t new) by (split; [by rewrite Hd' | done]).
    assert (Hnone : ∀ (P : Showtime → Prop) `{∀ x, Decision (P x)},
               (∀ st, P st → sameShowtime tz d t st) →
               list_find P (showtimes m) = None).
    { intros P HdecP HP. apply list_find_None.
      unfold findShowtime in Hf. apply list_find_None in Hf.
      eapply Forall_impl; [exact Hf|]. intros st Hn HPst. by apply Hn, HP. }
    split.
    + unfold findActiveShowtime, m'. simpl.
      rewrite list_find_app_r.
      * simpl. rewrite decide_True by done. simpl. done.
      * apply Hnone. intros st [Hs _]. by apply (sameShowtime_day d d').
    + intros sid' p' total' Hp' Htot'. unfold addShowtime.
      rewrite (addShowtime_valid t p' total' Ht Hp' Htot'). simpl.
      rewrite lookup_insert_eq.
      assert (Hf' : findShowtime tz m' d' t
                    = Some (length (showtimes m), new)).
      { unfold findShowtime, m'. simpl. rewrite list_find_app_r.
        - simpl. rewrite decide_True by done. simpl. done.
        - apply Hnone. intros st Hs. by apply (sameShowtime_day d d'). }
      by rewrite Hf'.
Qed.

Lemma uniqueShowtimes_replace m i st st' :
  uniqueShowtimes tz m → showtimes m !! i = Some st →
  st_date st' = st_date st → st_time st' = st_time st →
  uniqueShowtimes tz (set_showtimes (<[i := st']> (showtimes m)) m).
Proof.
  intros Hu Hi Hd Ht j k s1 s2 Hj Hk Hs. simpl in Hj, Hk.
  assert (Hget : ∀ n s, <[i := st']> (showtimes m) !! n = Some s →
            ∃ s0, showtimes m !! n = Some s0
                  ∧ st_date s = st_date s0 ∧ st_time s = st_time s0).
  { intros n s Hn.
    apply list_lookup_insert_Some in Hn as [(<- & <- & _)|[_ Hn]]; eauto. }
  apply Hget in Hj as (s1' & Hj & Hd1 & Ht1).
  apply Hget in Hk as (s2' & Hk & Hd2 & Ht2).
  apply (Hu j k s1' s2' Hj Hk).
  unfold sameShowtime in *. by rewrite <- Hd1, <- Ht1, <- Hd2, <- Ht2.
Qed.

Lemma uniqueShowtimes_snoc m new :
  uniqueShowtimes tz m →
  findShowtime tz m (st_date new) (st_time new) = None →
  uniqueShowtimes tz (set_showtimes (showtimes m ++ [new]) m).
Proof.
  intros Hu Hf i j s1 s2 Hi Hj Hs. simpl in Hi, Hj.
  unfold findShowtime in Hf. apply list_find_None in Hf.
  rewrite Forall_forall in Hf.
  apply lookup_app_Some in Hi as [Hi|[Hli Hi]];
    apply lookup_app_Some in Hj as [Hj|[Hlj Hj]].
  - by apply (Hu i j s1 s2).
  - apply list_lookup_singleton_Some in Hj as [_ <-].
    exfalso. apply (Hf s1); [by eapply list_elem_of_lookup_2|].
    destruct Hs as [Hs1 Hs2]. by split.
  - apply list_lookup_singleton_Some in Hi as [_ <-].
    exfalso. apply (Hf s2); [by eapply list_elem_of_lookup_2|]. exact Hs.
  - apply list_lookup_singleton_Some in Hi as [Hi _].
    apply list_lookup_singleton_Some in Hj as [Hj _]. lia.
Qed.

Lemma lookup_delete_Some_inv {A} (l : list A) (i j : nat) (x : A) :
  delete i l !! j = Some x →
  ∃ j', l !! j' = Some x ∧ (j' = if decide (j < i)%nat then j else S j).
Proof.
  intros H. destruct (decide (j < i)%nat) as [Hlt|Hge].
  - rewrite list_lookup_delete_lt in H by done. eauto.
  - rewrite list_lookup_delete_ge in H by lia. eauto.
Qed.

Lemma uniqueShowtimes_delete m i :
  uniqueShowtimes tz m →
  uniqueShowtimes tz (set_showtimes (delete i (showtimes m)) m).
Proof.
  intros Hu j k s1 s2 Hj Hk Hs. simpl in Hj, Hk.
  apply lookup_delete_Some_inv in Hj as (j' & Hj & ->).
  apply lookup_delete_Some_inv in Hk as (k' & Hk & ->).
  pose proof (Hu _ _ _ _ Hj Hk Hs) as E.
  repeat case_decide; lia.
Qed.

Lemma dbUnique_save db mid m' :
  dbUniqueShowtimes tz db → uniqueShowtimes tz m' →
  dbUniqueShowtimes tz (commit [SaveMovie mid m'] db).
Proof.
  intros Hdb Hm' k m0 Hk. simpl in Hk.
  destruct (decide (mid = k)) as [->|Hne].
  - rewrite lookup_insert_eq in Hk. by simplify_eq.
  - rewrite lookup_insert_ne in Hk by done. by eapply Hdb.
Qed.

Lemma movies_updateBookingStatus now u bid s reason db :
  movies (commit (updateBookingStatus now u bid s reason db).2 db) = movies db.
Proof.
  destruct (updateBookingStatus_cases now u bid s reason db)
    as [[_ ->]|[(b & _ & _ & ->)|(b & _ & _ & ->)]]; done.
Qed.

(** X2: that no two showtime entries of a movie share calendar day and
    time label is an invariant of every route but the showtime update:
    create and cancel change a counter only, the admin status update
    writes no movie, delete removes an entry, and add refuses a
    duplicate. *)
Theorem X2_unique_showtimes_kept r db db' :
  dbUniqueShowtimes tz db →
  (∀ mid sid body, r ≠ ReqUpdateShowtime mid sid body) →
  step tz r db = Some db' →
  dbUniqueShowtimes tz db'.
Proof.
  intros Hdb Hr H. unfold step in H.
  destruct (handle tz r db) as [[res ws]|] eqn:Hh; [|done].
  simpl in H. injection H as <-.
  destruct r as [tape u req|now u bid reason|now u bid s reason
                |mid sid body|mid sid d t p total|mid sid]; simpl in Hh.
  - by apply createBooking_status in Hh as [_ ->].
  - injection Hh as Hh.
    replace ws with (cancelBooking tz now u bid reason db).2 by (by rewrite Hh).
    destruct (movies_cancel_cases tz now u bid reason db)
      as [E|(b&m&i&st&Hb&Hm&Hf&E)];
      intros k m0 Hk; rewrite E in Hk; [by eapply Hdb|].
    destruct (decide (movie b = k)) as [<-|Hne].
    + rewrite lookup_insert_eq in Hk. simplify_eq.
      apply list_find_Some in Hf as (Hl & _).
      by apply (uniqueShowtimes_replace m i st); [eapply Hdb | ..].
    + rewrite lookup_insert_ne in Hk by done. by eapply Hdb.
  - injection Hh as Hh.
    replace ws with (updateBookingStatus now u bid s reason db).2
      by (by rewrite Hh).
    intros k m0 Hk. rewrite movies_updateBookingStatus in Hk. by eapply Hdb.
  - by destruct (Hr mid sid body).
  - injection Hh as Hh. unfold addShowtime in Hh.
    destruct (negb _); [by simplify_eq|].
    destruct (movies db !! mid) as [m|] eqn:Hm; [|by simplify_eq].
    destruct (findShowtime tz m d t) as [?|] eqn:Hf; simplify_eq; [done|].
    apply dbUnique_save; [done|].
    apply (uniqueShowtimes_snoc m (mkShowtime sid d t p total total true));
      [by eapply Hdb | done].
  - injection Hh as Hh. unfold deleteShowtime in Hh.
    destruct (movies db !! mid) as [m|] eqn:Hm; [|by simplify_eq].
    destruct (showtimeById m sid) as [[i st]|]; simplify_eq; [|done].
    apply dbUnique_save; [done|]. apply uniqueShowtimes_delete. by eapply Hdb.
Qed.

(** X3: the showtime update checks no duplicate.  Given two entries of a
    movie, updating the second one's date and time label to those of the
    first is accepted (200), and the saved movie then has two entries on
    the same calendar day with the same label. *)
Theorem X3_updateShowtime_duplicates db mid sid m i j st1 st2 :
  movies db !! mid = Some m →
  showtimes m !! i = Some st1 →
  showtimeById m sid = Some (j, st2) →
  i ≠ j → st_time st1 ≠ "" →
  ∃ m',
    updateShowtime mid sid [upd_date (st_date st1); upd_time (st_time st1)] db
    = (respond 200 "Showtime updated successfully", [SaveMovie mid m'])
    ∧ movies (commit [SaveMovie mid m'] db) !! mid = Some m'
    ∧ ¬ uniqueShowtimes tz m'.
Proof.
  intros Hm Hi Hj Hne Ht. eexists. split_and!.
  - unfold updateShowtime. simpl.
    rewrite bool_decide_eq_true_2 by done. simpl. rewrite Hm, Hj. reflexivity.
  - simpl. apply lookup_insert_eq.
  - intros Hu. apply Hne.
    apply list_find_Some in Hj as (Hj & _).
    eapply (Hu i j); simpl.
    + rewrite list_lookup_insert_ne by done. exact Hi.
    + apply list_lookup_insert_eq. by eapply lookup_lt_Some.
    + done.
Qed.

Lemma showtimeById_fresh m sid :
  sid ∉ st_id <$> showtimes m → showtimeById m sid = None.
Proof.
  intros Hn. unfold showtimeById. apply list_find_None, Forall_forall.
  intros st Hst E. apply Hn. apply list_elem_of_fmap. by exists st.
Qed.

(** X4: deleting a showtime removes the first entry that bears the id and
    keeps every other entry in order; the bookings made for it stay in the
    store.  When the ids of the movie's entries are distinct, the id is
    then unknown: a second delete is answered 404 and writes nothing. *)
Theorem X4_deleteShowtime_effect db mid sid m i st :
  movies db !! mid = Some m →
  showtimeById m sid = Some (i, st) →
  let m' := set_showtimes (delete i (showtimes m)) m in
  deleteShowtime mid sid db
  = (respond 200 "Showtime deleted successfully", [SaveMovie mid m'])
  ∧ showtimes m = (take i (showtimes m) ++ st :: drop (S i) (showtimes m))%list
  ∧ showtimes m' = (take i (showtimes m) ++ drop (S i) (showtimes m))%list
  ∧ bookings (commit [SaveMovie mid m'] db) = bookings db
  ∧ (NoDup (st_id <$> showtimes m) →
     deleteShowtime mid sid (commit [SaveMovie mid m'] db)
     = (respond 404 "Showtime not found", [])).
Proof.
  intros Hm Hf m'. pose proof Hf as Hf'.
  apply list_find_Some in Hf' as (Hl & Hid & _).
  split_and!.
  - unfold deleteShowtime. by rewrite Hm, Hf.
  - by rewrite take_drop_middle.
  - simpl. apply delete_take_drop.
  - done.
  - intros Hnd. unfold deleteShowtime. simpl. rewrite lookup_insert_eq.
    rewrite showtimeById_fresh; [done|]. simpl.
    rewrite <- (take_drop_middle _ _ _ Hl) in Hnd.
    rewrite delete_take_drop.
    rewrite fmap_app, fmap_cons in Hnd.
    apply NoDup_app in Hnd as (_ & Hdis & Hnd).
    apply NoDup_cons in Hnd as [Hnot _].
    rewrite fmap_app. intros Hin. apply elem_of_app in Hin as [Hin|Hin].
    + apply (Hdis _ Hin). rewrite Hid. by left.
    + apply Hnot. by rewrite Hid.
Qed.

(** X5: adding a showtime under a fresh id and then deleting that id
    gives back the store as it was. *)
Theorem X5_add_then_delete db mid sid d t p total m :
  t ≠ "" → (0 <= p)%Q → 1 <= total →
  movies db !! mid = Some m →
  findShowtime tz m d t = None →
  sid ∉ st_id <$> showtimes m →
  ∃ res1 db1 res2 db2,
    step tz (ReqAddShowtime mid sid d t p total) db = Some db1
    ∧ (addShowtime tz mid sid d t p total db).1 = res1 ∧ res_status res1 = 201
    ∧ step tz (ReqDeleteShowtime mid sid) db1 = Some db2
    ∧ (deleteShowtime mid sid db1).1 = res2 ∧ res_status res2 = 200
    ∧ db2 = db.
Proof.
  intros Ht Hp Htot Hm Hf Hsid.
  set (new := mkShowtime sid d t p total total true).
  set (m1 := set_showtimes (showtimes m ++ [new]) m).
  assert (Hadd : addShowtime tz mid sid d t p total db
                 = (respond 201 "Showtime added successfully", [SaveMovie mid m1])).
  { unfold addShowtime.
    by rewrite (addShowtime_valid t p total Ht Hp Htot), Hm, Hf. }
  set (db1 := commit [SaveMovie mid m1] db).
  assert (Hby : showtimeById m1 sid = Some (length (showtimes m), new)).
  { unfold showtimeById, m1. simpl. rewrite list_find_app_r.
    - simpl. rewrite decide_True by done. done.
    - by apply showtimeById_fresh. }
  assert (Hdel : deleteShowtime mid sid db1
                 = (respond 200 "Showtime deleted successfully",
                    [SaveMovie mid
                       (set_showtimes
                          (delete (length (showtimes m)) (showtimes m1)) m1)])).
  { unfold deleteShowtime, db1. simpl. rewrite lookup_insert_eq. by rewrite Hby. }
  eexists _, db1, _, _. split_and!.
  - unfold step. simpl. by rewrite Hadd.
  - by rewrite Hadd.
  - done.
  - unfold step. simpl. by rewrite Hdel.
  - by rewrite Hdel.
  - done.
  - simpl. destruct db as [ms bs]. unfold set_movies. simpl. f_equal.
    rewrite insert_insert_eq.
    apply insert_id. simpl in Hm. rewrite Hm. f_equal.
    destruct m as [ti po sh ac]. unfold set_showtimes. simpl. f_equal.
    rewrite delete_take_drop, take_app_length.
    rewrite drop_ge; [|rewrite length_app; simpl; lia]. by rewrite app_nil_r.
Qed.
End Showtimes.


(** ** Seat accounting across create, cancel and the admin routes *)

Section Accounting.
Variable tz : Z.

Lemma findShowtime_counter m d t i st n :
  findShowtime tz m d t = Some (i, st) →
  findShowtime tz
    (set_showtimes (<[i := set_availableSeats n st]> (showtimes m)) m) d t
  = Some (i, set_availableSeats n st).
Proof.
  unfold findShowtime. intros Hf. simpl.
  apply find_insert_same with (x := st); [done|].
  apply list_find_Some in Hf as (_ & HP & _). exact HP.
Qed.

Lemma set_showtimes_id m : set_showtimes (showtimes m) m = m.
Proof. by destruct m. Qed.

Lemma set_availableSeats_id st : set_availableSeats (availableSeats st) st = st.
Proof. by destruct st. Qed.


(** X8: cancellation frees the seat labels.  In a store that is exclusive
    on the stored key, after a successful cancellation no seat of the
    cancelled booking is in the booked set of its movie, date and time
    label, so the conflict guard passes for a request of that key that
    asks for seats of the cancelled booking only. *)
Theorem X8_cancel_frees_seats now u bid reason db b :
  exclusive (bookings db) →
  bookings db !! bid = Some b → activeStatus b → authorized u b →
  validateBooking b = true → validReason reason →
  withinWindow tz now b = false →
  let db' := commit (cancelBooking tz now u bid reason db).2 db in
  let booked :=
    bookedSeats (bookings db') (movie b) (date (showtime b))
      (time (showtime b)) in
  res_status (cancelBooking tz now u bid reason db).1 = 200
  ∧ (∀ x, x ∈ seats b → x ∉ booked)
  ∧ (∀ requested, requested ⊆ seats b → conflictingSeats requested booked = []).
Proof.
  intros Hex Hb Hs Ha Hv Hr Hw db' booked.
  pose proof (cancelBooking_ok tz now u bid reason db b Hb Ha Hs Hv Hr Hw)
    as Hcancel.
  cbv zeta in Hcancel.
  assert (Hfree : ∀ x, x ∈ seats b → x ∉ booked).
  { intros x Hx Hin. unfold booked, db' in Hin.
    rewrite Hcancel in Hin.
    cbn [snd] in Hin. rewrite bookings_commit_cancel in Hin.
    apply bookedSeats_inv in Hin as (b2 & Hb2 & Hm2 & Hsh2 & Hact2 & Hx2).
    apply list_elem_of_lookup in Hb2 as [k Hk].
    apply list_lookup_insert_Some in Hk as [(_ & <- & _)|[Hne Hk]].
    - destruct Hact2 as [?|?]; discriminate.
    - apply (Hex bid k b b2 x); try done.
      rewrite Hsh2. by destruct (showtime b). }
  split; [by rewrite Hcancel|].
  split; [done|]. intros requested Hsub.
  unfold conflictingSeats.
  destruct (filter _ requested) as [|x l] eqn:E; [done|]. exfalso.
  assert (Hx : x ∈ filter (λ seat, seat ∈ booked) requested)
    by (rewrite E; apply list_elem_of_here).
  apply list_elem_of_filter in Hx as [Hin Hreq].
  apply (Hfree x); [by apply Hsub | done].
Qed.

Lemma reserved_cons b bs mid st :
  reserved tz (b :: bs) mid st
  = (if decide (holds tz mid st b) then quantity b else 0)
    + reserved tz bs mid st.
Proof.
  unfold reserved. rewrite filter_cons. case_decide; simpl; lia.
Qed.

Lemma reserved_app bs1 bs2 mid st :
  reserved tz (bs1 ++ bs2) mid st
  = reserved tz bs1 mid st + reserved tz bs2 mid st.
Proof.
  induction bs1 as [|b bs1 IH]; [done|].
  rewrite <- app_comm_cons, !reserved_cons, IH. lia.
Qed.

Lemma reserved_snoc bs b mid st :
  reserved tz (bs ++ [b]) mid st
  = reserved tz bs mid st
    + (if decide (holds tz mid st b) then quantity b else 0).
Proof.
  rewrite reserved_app, reserved_cons.
  change (reserved tz [] mid st) with 0. case_decide; lia.
Qed.

Lemma reserved_insert bs i b b' mid st :
  bs !! i = Some b →
  reserved tz (<[i := b']> bs) mid st
  = reserved tz bs mid st
    - (if decide (holds tz mid st b) then quantity b else 0)
    + (if decide (holds tz mid st b') then quantity b' else 0).
Proof.
  intros Hi. rewrite insert_take_drop by (by eapply lookup_lt_Some).
  rewrite <- (take_drop_middle bs i b Hi) at 3.
  rewrite !reserved_app, !reserved_cons. lia.
Qed.







(** The admin status route saves a valid booking under a reason of 200
    characters at most; the saved document keeps the key and the seats. *)
Lemma updateBookingStatus_ok now u bid s reason db b :
  bookings db !! bid = Some b → validateBooking b = true →
  (s = cancelled →
   (String.length (reasonOr reason "Cancelled by admin") <= 200)%nat) →
  ∃ b2,
    updateBookingStatus now u bid s reason db
    = (mkResponse 200 "Booking status updated successfully" (Some b2),
       [SaveBooking bid b2])
    ∧ status b2 = s ∧ seats b2 = seats b ∧ quantity b2 = quantity b
    ∧ movie b2 = movie b ∧ showtime b2 = showtime b.
Proof.
  intros Hb Hv Hr.
  assert (Hsaved : validateBooking
            (if bool_decide (s = cancelled)
             then markCancelled now u (reasonOr reason "Cancelled by admin")
                    (set_status s b)
             else set_status s b) = true).
  { case_bool_decide as Hs; [|done].
    destruct (validateBooking_markCancelled now u
                (reasonOr reason "Cancelled by admin") (set_status s b))
      as [->|E]; [by apply Hr|done|].
    rewrite validateBooking_set_status in E. congruence. }
  unfold updateBookingStatus. rewrite Hb. rewrite Hsaved. simpl.
  eexists. split; [reflexivity|]. by case_bool_decide.
Qed.

(** X10: the admin status update writes the booking and nothing else, so
    it breaks the conservation: from a conserving store, after it has set
    the status of a booking that matches a showtime entry of its movie
    (a booking that passes the schema, and a reason of 200 characters at
    most when the status is cancelled), the counter of the entry is as
    before and the seats held on it have changed by the booking's
    quantity, downwards when an active booking leaves the pending and
    confirmed statuses, upwards when an inactive one enters them. *)
Theorem X10_admin_status_drift now u bid s reason db b m i st :
  conserved tz db →
  bookings db !! bid = Some b →
  validateBooking b = true →
  (s = cancelled →
   (String.length (reasonOr reason "Cancelled by admin") <= 200)%nat) →
  movies db !! movie b = Some m →
  findShowtime tz m (date (showtime b)) (time (showtime b)) = Some (i, st) →
  let db' := commit (updateBookingStatus now u bid s reason db).2 db in
  let before := if decide (activeStatus b) then quantity b else 0 in
  let after := if decide (s = pending ∨ s = confirmed) then quantity b else 0 in
  res_status (updateBookingStatus now u bid s reason db).1 = 200
  ∧ movies db' = movies db
  ∧ availableSeats st + reserved tz (bookings db') (movie b) st
    = totalSeats st - before + after.
Proof.
  intros Hc Hb Hv Hr Hm Hf db' before after.
  destruct (updateBookingStatus_ok now u bid s reason db b Hb Hv Hr)
    as (b2 & Hup & Hst & Hseats & Hq & Hmov & Hsh).
  split; [by rewrite Hup|].
  split; [apply movies_updateBookingStatus|].
  apply list_find_Some in Hf as (Hl & Hsame & _).
  pose proof (Hc _ _ st Hm (list_elem_of_lookup_2 _ _ _ Hl)) as E.
  unfold db'. rewrite Hup.
  cbn [snd commit foldl applyWrite set_bookings bookings].
  rewrite (reserved_insert _ _ b) by done.
  assert (Hholds : holds tz (movie b) st b ↔ activeStatus b).
  { unfold holds. split; [by intros (_ & ? & _) | by intros ?]. }
  assert (Hholds2 : holds tz (movie b) st b2 ↔ (s = pending ∨ s = confirmed)).
  { unfold holds, activeStatus. rewrite Hmov, Hsh, Hst.
    split; [by intros (_ & ? & _) | by intros ?]. }
  assert (Ebefore : (if decide (holds tz (movie b) st b) then quantity b else 0)
                    = before).
  { unfold before.
    destruct (decide (holds tz (movie b) st b)) as [H1|H1],
             (decide (activeStatus b)) as [H2|H2]; try done.
    - exfalso. exact (H2 (proj1 Hholds H1)).
    - exfalso. exact (H1 (proj2 Hholds H2)). }
  assert (Eafter : (if decide (holds tz (movie b) st b2) then quantity b2 else 0)
                   = after).
  { unfold after. rewrite Hq.
    destruct (decide (holds tz (movie b) st b2)) as [H1|H1],
             (decide (s = pending ∨ s = confirmed)) as [H2|H2]; try done.
    - exfalso. exact (H2 (proj1 Hholds2 H1)).
    - exfalso. exact (H1 (proj2 Hholds2 H2)). }
  rewrite Ebefore, Eafter. lia.
Qed.

(** X11: the create route never reads the movie's [isActive] flag: with
    the flag changed, every request gets the same response. *)
Theorem X11_create_ignores_movie_flag tape u req db m flag :
  movies db !! movieId req = Some m →
  let db' :=
    set_movies
      (<[movieId req := mkMovie (title m) (poster m) (showtimes m) flag]>
         (movies db)) db in
  fst <$> createBooking tz tape u req db'
  = fst <$> createBooking tz tape u req db.
Proof.
  intros Hm db'. unfold createBooking, db'. simpl.
  rewrite lookup_insert_eq, Hm. unfold findActiveShowtime. simpl.
  destruct (validCreate req); simpl; [|done].
  destruct (list_find _ (showtimes m)) as [[i st]|]; [|done].
  destruct (availableSeats st <? req_quantity req); [done|].
  destruct (0 <? _); [done|].
  by rewrite !Booking_create_no_code.
Qed.
End Accounting.


(** ** Reading bookings, deleting movies *)

Section Reading.
Variable tz : Z.

Lemma findOne_Some_inv bs code b :
  findOne_bookingCode bs code = Some b → b ∈ bs ∧ bookingCode b = code.
Proof.
  unfold findOne_bookingCode. intros H.
  destruct (list_find _ bs) as [[i b0]|] eqn:Hf; [|done].
  simpl in H. injection H as <-.
  apply list_find_Some in Hf as (Hl & Hc & _).
  split; [by eapply list_elem_of_lookup_2 | done].
Qed.

(** With distinct codes, the lookup by code finds the booking that bears
    the code. *)
Lemma findOne_stored (bs : list Booking) (i : nat) (b : Booking) :
  NoDup (bookingCode <$> bs) → bs !! i = Some b →
  findOne_bookingCode bs (bookingCode b) = Some b.
Proof.
  intros Hnd Hi. unfold findOne_bookingCode.
  destruct (list_find (λ b0, bookingCode b0 = bookingCode b) bs)
    as [[j b0]|] eqn:Hf.
  - simpl. f_equal. apply list_find_Some in Hf as (Hj & Hc & _).
    assert (j = i) as ->; [|congruence].
    eapply (NoDup_lookup (bookingCode <$> bs) j i (bookingCode b)); [done | |];
      rewrite list_lookup_fmap.
    + by rewrite Hj, <- Hc.
    + by rewrite Hi.
  - apply list_find_None in Hf. rewrite Forall_forall in Hf.
    destruct (Hf b); [by eapply list_elem_of_lookup_2 | done].
Qed.

Lemma viewBooking_cases users u db b :
  ((user b ∉ users)
   ∧ viewBooking users u db b
     = respond 500 "Server error while fetching booking")
  ∨ (user b ∈ users ∧ ¬ authorized u b
     ∧ viewBooking users u db b
       = respond 403 "Not authorized to view this booking")
  ∨ (user b ∈ users ∧ authorized u b ∧ movies db !! movie b ≠ None
     ∧ viewBooking users u db b
       = respond 500 "Server error while fetching booking")
  ∨ (user b ∈ users ∧ authorized u b ∧ movies db !! movie b = None
     ∧ viewBooking users u db b = mkResponse 200 "" (Some b)).
Proof.
  unfold viewBooking, serializes. case_bool_decide as Hu; [by left|]. right.
  destruct (bool_decide (user b ≠ id u) && bool_decide (role u ≠ role_admin))
    eqn:Ha.
  - left. split_and!; try done. intros Hau.
    apply (authorized_guard u b) in Hau. congruence.
  - right. apply authorized_guard in Ha.
    case_bool_decide as Hm; simpl; [by right | by left].
Qed.

(** X12: reading a stored booking, by index and by code, in a store whose
    booking codes are distinct and for an owner who is still a user.  A
    caller who is neither the owner nor an admin is refused with 403.
    For the owner and for an admin the answer depends on the movie of
    the booking: while the movie is in the store the response cannot be
    serialized and the route answers 500; once the movie is gone the
    booking is returned with 200. *)
Theorem X12_stored_booking_is_retrievable users db i b :
  NoDup (codes db) → bookings db !! i = Some b → user b ∈ users →
  ∀ u,
    (authorized u b → movies db !! movie b = None →
       getBookingByCode users u (bookingCode b) db = mkResponse 200 "" (Some b)
       ∧ getBooking users u i db = mkResponse 200 "" (Some b))
    ∧ (authorized u b → movies db !! movie b ≠ None →
       getBookingByCode users u (bookingCode b) db
       = respond 500 "Server error while fetching booking"
       ∧ getBooking users u i db
         = respond 500 "Server error while fetching booking")
    ∧ (¬ authorized u b →
       getBookingByCode users u (bookingCode b) db
       = respond 403 "Not authorized to view this booking"
       ∧ getBooking users u i db
         = respond 403 "Not authorized to view this booking").
Proof.
  intros Hnd Hi Hu u. unfold getBookingByCode, getBooking.
  rewrite (findOne_stored _ i b Hnd Hi), Hi.
  destruct (viewBooking_cases users u db b)
    as [[Hn _]|[(_ & Hna & ->)|[(_ & Ha & Hm & ->)|(_ & Ha & Hm & ->)]]];
    [done| | |]; split_and!; intros; done.
Qed.

(** X13: what the two read routes never do.  A response that carries a
    booking comes with status 200, the booking is stored, it bears the
    code asked for (or sits at the index asked for), its owner is a user,
    and the caller is its owner or an admin; a code that no booking bears
    and an index beyond the collection are answered 404. *)
Theorem X13_read_routes_disclose_to_owner_or_admin users u db :
  (∀ code b,
      res_booking (getBookingByCode users u code db) = Some b →
      res_status (getBookingByCode users u code db) = 200
      ∧ b ∈ bookings db ∧ bookingCode b = code
      ∧ user b ∈ users ∧ authorized u b)
  ∧ (∀ bid b,
      res_booking (getBooking users u bid db) = Some b →
      res_status (getBooking users u bid db) = 200
      ∧ bookings db !! bid = Some b
      ∧ user b ∈ users ∧ authorized u b)
  ∧ (∀ code, code ∉ codes db →
      getBookingByCode users u code db = respond 404 "Booking not found")
  ∧ (∀ bid, (length (bookings db) <= bid)%nat →
      getBooking users u bid db = respond 404 "Booking not found").
Proof.
  split_and!.
  - intros code b. unfold getBookingByCode.
    destruct (findOne_bookingCode (bookings db) code) as [b0|] eqn:Hf; [|done].
    apply findOne_Some_inv in Hf as [Hin Hc].
    destruct (viewBooking_cases users u db b0)
      as [[_ ->]|[(_ & _ & ->)|[(_ & _ & _ & ->)|(Hu & Ha & _ & ->)]]];
      try done.
    simpl. intros [= <-]. done.
  - intros bid b. unfold getBooking.
    destruct (bookings db !! bid) as [b0|] eqn:Hl; [|done].
    destruct (viewBooking_cases users u db b0)
      as [[_ ->]|[(_ & _ & ->)|[(_ & _ & _ & ->)|(Hu & Ha & _ & ->)]]];
      try done.
    simpl. intros [= <-]. done.
  - intros code Hn. unfold getBookingByCode.
    by rewrite (proj2 (findOne_None _ _) Hn).
  - intros bid Hge. unfold getBooking.
    by rewrite (proj2 (lookup_ge_None _ _) Hge).
Qed.

(** X14: deleting a movie leaves its bookings in the store.  Afterwards a
    create request for the movie is answered with the movie-not-found
    error, a second delete with 404, and a pending or confirmed booking of
    the movie can still be cancelled (it passes the schema, the reason is
    of 200 characters at most after trimming): the route answers 200 and
    writes the booking only. *)
Theorem X14_deleteMovie_orphans_bookings db mid m :
  movies db !! mid = Some m →
  let db' := (deleteMovie mid db).2 in
  (deleteMovie mid db).1 = respond 200 "Movie deleted successfully"
  ∧ bookings db' = bookings db
  ∧ movies db' = delete mid (movies db)
  ∧ deleteMovie mid db' = (respond 404 "Movie not found", db')
  ∧ (∀ tape u req, movieId req = mid → validCreate req = true →
       createBooking tz tape u req db' = Some (MovieNotFound, []))
  ∧ (∀ now u bid reason b,
       bookings db !! bid = Some b → movie b = mid →
       activeStatus b → authorized u b →
       validateBooking b = true → validReason reason →
       withinWindow tz now b = false →
       cancelBooking tz now u bid reason db'
       = (mkResponse 200 "Booking cancelled successfully"
            (Some (userCancelled now u reason b)),
          [SaveBooking bid (userCancelled now u reason b)])).
Proof.
  intros Hm db'. unfold db', deleteMovie. rewrite Hm. simpl.
  split_and!; try done.
  - by rewrite lookup_delete_eq.
  - intros tape u req <- Hv. unfold createBooking. rewrite Hv. simpl.
    by rewrite lookup_delete_eq.
  - intros now u bid reason b Hb <- Hs Ha Hv Hr Hw.
    rewrite (cancelBooking_ok tz now u bid reason _ b); try done.
    unfold restoreSeats.
    change (movie (userCancelled now u reason b)) with (movie b).
    simpl. by rewrite lookup_delete_eq.
Qed.
End Reading.


(** ** Listing a user's bookings, and the dashboard of the client *)

Section Listing.

Lemma qdiv_le (total limit k : Z) :
  1 <= limit →
  (inject_Z total / inject_Z limit <= inject_Z k)%Q ↔ total <= k * limit.
Proof.
  intros Hl. destruct limit as [|p|p]; try lia.
  unfold Qle, Qdiv, Qmult, Qinv, inject_Z. cbn [Qnum Qden].
  rewrite Pos.mul_1_l. lia.
Qed.

(** [Math.ceil(total / limit)] is the least number of pages of [limit]
    documents that hold [total] documents. *)
Lemma ceiling_le (total limit k : Z) :
  1 <= limit →
  Qceiling (inject_Z total / inject_Z limit) <= k ↔ total <= k * limit.
Proof.
  intros Hl. rewrite <- (qdiv_le total limit k Hl). split.
  - intros H. eapply Qle_trans; [apply Qle_ceiling|]. by rewrite <- Zle_Qle.
  - intros H. rewrite <- (Qceiling_Z k). by apply Qceiling_resp_le.
Qed.

Lemma take_add_drop {A} (l : list A) (n m : nat) :
  take (n + m) l = (take n l ++ take m (drop n l))%list.
Proof.
  revert l. induction n as [|n IH]; intros l; [done|].
  destruct l as [|x l]; simpl; [by rewrite take_nil|]. by rewrite IH.
Qed.

Lemma pages_concat {A} (l : list A) (limit n : nat) :
  concat ((λ p, take limit (drop ((p - 1) * limit) l)) <$> seq 1 n)
  = take (n * limit) l.
Proof.
  induction n as [|n IH]; [done|].
  rewrite seq_S, fmap_app, concat_app, IH. simpl.
  rewrite app_nil_r, Nat.sub_0_r.
  by rewrite (Nat.add_comm limit), take_add_drop.
Qed.

Lemma take_drop_nil {A} (l : list A) (limit skip : nat) :
  (0 < limit)%nat →
  take limit (drop skip l) = [] ↔ (length l <= skip)%nat.
Proof.
  intros Hl. split.
  - intros H. apply (f_equal length) in H.
    rewrite length_take, length_drop in H. simpl in H. lia.
  - intros H. rewrite drop_ge by done. apply take_nil.
Qed.

Lemma forallb_serializes db (l : list Booking) :
  forallb (serializes db) l = true ↔ ∀ b, b ∈ l → movies db !! movie b = None.
Proof.
  rewrite forallb_forall. split.
  - intros H b Hb. apply list_elem_of_In, H in Hb.
    unfold serializes in Hb. by case_bool_decide.
  - intros H b Hb. apply list_elem_of_In, H in Hb.
    unfold serializes. by rewrite bool_decide_eq_true_2.
Qed.

(** The list route on a page and a limit that the driver takes. *)
Lemma listBookings_run byCreatedAtDesc u qpage qlimit qstatus db page limit :
  queryInt qpage 1 = JS.Int page → queryInt qlimit 10 = JS.Int limit →
  1 <= page → 1 <= limit → page * limit < 2 ^ 53 →
  let found :=
    filter (λ b, user b = id u ∧ statusFilter qstatus b = true) (bookings db) in
  let docs :=
    take (Z.to_nat limit)
      (drop (Z.to_nat ((page - 1) * limit)) (byCreatedAtDesc found)) in
  listBookings byCreatedAtDesc u qpage qlimit qstatus db
  = Some (if forallb (serializes db) docs
          then inr (mkBookingList docs
                      (paginationOf page limit (Z.of_nat (length found))))
          else inl (respond 500 "Server error while fetching bookings")).
Proof.
  intros Ep El Hp Hl Hpl found docs. unfold listBookings.
  rewrite Ep, El. fold found. fold docs.
  assert (Hguard : (page <? 1) || (limit <? 1) || (2 ^ 53 <=? page * limit)
                   = false).
  { rewrite !orb_false_iff. split_and!; [by apply Z.ltb_ge..|].
    by apply Z.leb_gt. }
  rewrite Hguard. by destruct (forallb (serializes db) docs).
Qed.

(** X15: the list of a user's bookings.  For a page and a limit of at
    least 1 whose product is below 2^53 (the limit is 10 and the page 1
    when the parameter is absent, not a number, or 0), the documents of
    the page are all stored bookings of the caller and pass the status
    filter; their number is the limit, or what is left after the pages
    before.  The route sends them, with a total that counts all of the
    caller's bookings that pass the filter, exactly when no movie of a
    booking of the page is in the store; when one is, the response
    cannot be serialized and the route answers 500. *)
Theorem X15_listBookings_page byCreatedAtDesc u qpage qlimit qstatus db
  page limit :
  (∀ l, byCreatedAtDesc l ≡ₚ l) →
  queryInt qpage 1 = JS.Int page → queryInt qlimit 10 = JS.Int limit →
  1 <= page → 1 <= limit → page * limit < 2 ^ 53 →
  let found :=
    filter (λ b, user b = id u ∧ statusFilter qstatus b = true) (bookings db) in
  let docs :=
    take (Z.to_nat limit)
      (drop (Z.to_nat ((page - 1) * limit)) (byCreatedAtDesc found)) in
  (∀ b, b ∈ docs →
        b ∈ bookings db ∧ user b = id u ∧ statusFilter qstatus b = true)
  ∧ length docs
    = Nat.min (Z.to_nat limit)
        (length found - Z.to_nat ((page - 1) * limit))
  ∧ ((∀ b, b ∈ docs → movies db !! movie b = None) →
     listBookings byCreatedAtDesc u qpage qlimit qstatus db
     = Some (inr (mkBookingList docs
                    (paginationOf page limit (Z.of_nat (length found))))))
  ∧ ((∃ b, b ∈ docs ∧ movies db !! movie b ≠ None) →
     listBookings byCreatedAtDesc u qpage qlimit qstatus db
     = Some (inl (respond 500 "Server error while fetching bookings")))
  ∧ ((JS.parseIntOpt qlimit = JS.NaN ∨ JS.parseIntOpt qlimit = JS.Int 0) →
     limit = 10)
  ∧ ((JS.parseIntOpt qpage = JS.NaN ∨ JS.parseIntOpt qpage = JS.Int 0) →
     page = 1).
Proof.
  intros Hperm Ep El Hp Hl Hpl found docs.
  pose proof (listBookings_run byCreatedAtDesc u qpage qlimit qstatus db
                page limit Ep El Hp Hl Hpl) as Hrun.
  cbv zeta in Hrun. fold found in Hrun. fold docs in Hrun.
  split_and!.
  - intros b Hb. apply subseteq_take, subseteq_drop in Hb.
    rewrite Hperm in Hb. unfold found in Hb.
    apply list_elem_of_filter in Hb as [[Hu Hs] Hin]. done.
  - unfold docs. rewrite length_take, length_drop.
    by rewrite (Permutation_length (Hperm _)).
  - intros Hgone. apply forallb_serializes in Hgone.
    by rewrite Hrun, Hgone.
  - intros (b & Hb & Hm). rewrite Hrun.
    destruct (forallb (serializes db) docs) eqn:E; [|done].
    destruct Hm. by eapply forallb_serializes.
  - unfold queryInt in El.
    intros [E | E]; rewrite E in El; cbn in El; by injection El as <-.
  - unfold queryInt in Ep.
    intros [E | E]; rewrite E in Ep; cbn in Ep; by injection Ep as <-.
Qed.

(** X16: the pagination object and the pages.  For a page and a limit of
    at least 1 over [docs], [totalPages] is the least number of pages that
    hold all documents; [hasNextPage] is set exactly when the next page
    has a document, which is when the page is below [totalPages]; the
    page itself is empty exactly when it lies beyond [totalPages];
    [hasPrevPage] is set exactly from page 2 on; and the pages 1 to
    [totalPages], one after the other, are [docs]. *)
Theorem X16_pagination_flags (docs : list Booking) (page limit : Z) :
  1 <= page → 1 <= limit →
  let info := paginationOf page limit (Z.of_nat (length docs)) in
  let items := λ p : Z,
    take (Z.to_nat limit) (drop (Z.to_nat ((p - 1) * limit)) docs) in
  (∀ k, totalPages info <= k ↔ Z.of_nat (length docs) <= k * limit)
  ∧ (hasNextPage info = true ↔ items (page + 1) ≠ [])
  ∧ (hasNextPage info = true ↔ page < totalPages info)
  ∧ (items page = [] ↔ totalPages info < page)
  ∧ (hasPrevPage info = true ↔ 1 < page)
  ∧ concat ((λ p : nat, items (Z.of_nat p))
              <$> seq 1 (Z.to_nat (totalPages info))) = docs.
Proof.
  intros Hp Hl info items.
  assert (Hc : ∀ k, totalPages info <= k ↔ Z.of_nat (length docs) <= k * limit).
  { intros k. by apply ceiling_le. }
  assert (Hnil : ∀ p, 1 <= p →
            items p = [] ↔ Z.of_nat (length docs) <= (p - 1) * limit).
  { intros p Hp1. unfold items. rewrite take_drop_nil by lia. nia. }
  assert (Htp : 0 <= totalPages info).
  { destruct (decide (0 <= totalPages info)) as [|Hneg]; [done|].
    assert (H1 : totalPages info <= -1) by lia. apply Hc in H1. nia. }
  split_and!.
  - exact Hc.
  - simpl. rewrite Z.ltb_lt. split.
    + intros Hlt Hnone. apply Hnil in Hnone; [|lia].
      replace (page + 1 - 1) with page in Hnone by lia. lia.
    + intros Hne. destruct (decide (page * limit < Z.of_nat (length docs)));
        [done|]. destruct Hne. apply Hnil; [lia|].
      replace (page + 1 - 1) with page by lia. lia.
  - simpl hasNextPage. rewrite Z.ltb_lt.
    pose proof (Hc page) as Hcp. lia.
  - rewrite (Hnil page Hp). pose proof (Hc (page - 1)) as Hcp. lia.
  - simpl. by rewrite Z.ltb_lt.
  - assert (Hall : (length docs
                    <= Z.to_nat (totalPages info) * Z.to_nat limit)%nat).
    { pose proof (proj1 (Hc (totalPages info)) ltac:(lia)). nia. }
    rewrite <- (take_ge docs _ Hall) at 1.
    rewrite <- (pages_concat docs (Z.to_nat limit)).
    f_equal. apply list_fmap_ext. intros i p Hi.
    apply lookup_seq in Hi as [-> _]. unfold items.
    replace (Z.to_nat ((Z.of_nat (1 + i) - 1) * limit))
      with ((1 + i - 1) * Z.to_nat limit)%nat by nia.
    done.
Qed.

(** X17: the statistics of the user dashboard are computed from the
    second response of [fetchUserData], which is the first page of ten.
    While a movie of one of the user's ten newest bookings is in the
    store, that request fails and nothing is set.  When those movies are
    all gone, whatever the number of the user's bookings, "total
    bookings" is that number capped at 10, "active bookings" counts the
    pending and confirmed ones among those listed, and the recent
    bookings are five at most. *)
Theorem X17_dashboard_stats_first_page byCreatedAtDesc u db :
  (∀ l, byCreatedAtDesc l ≡ₚ l) →
  let mine := filter (λ b, user b = id u) (bookings db) in
  ((∃ b, b ∈ take 10 (byCreatedAtDesc mine) ∧ movies db !! movie b ≠ None) →
   fetchUserData byCreatedAtDesc u db = None)
  ∧ ((∀ b, b ∈ take 10 (byCreatedAtDesc mine) → movies db !! movie b = None) →
     ∃ recent stats,
       fetchUserData byCreatedAtDesc u db = Some (recent, stats)
       ∧ recent = take 5 (byCreatedAtDesc mine)
       ∧ length recent = Nat.min 5 (length mine)
       ∧ totalBookings stats = Nat.min 10 (length mine)
       ∧ activeBookings stats
         = length (filter activeStatus (take 10 (byCreatedAtDesc mine)))
       ∧ (activeBookings stats <= totalBookings stats)%nat).
Proof.
  intros Hperm mine.
  assert (Hfound : filter (λ b, user b = id u ∧ statusFilter None b = true)
                     (bookings db) = mine).
  { apply list_filter_iff. intros b. simpl. tauto. }
  assert (Hlen : length (byCreatedAtDesc mine) = length mine)
    by apply (Permutation_length (Hperm _)).
  assert (E5 : queryInt (Some "5") 10 = JS.Int 5) by (vm_compute; reflexivity).
  assert (H5 : 1 * 5 < 2 ^ 53) by (vm_compute; reflexivity).
  assert (H10 : 1 * 10 < 2 ^ 53) by (vm_compute; reflexivity).
  pose proof (listBookings_run byCreatedAtDesc u None (Some "5") None db 1 5
                eq_refl E5 ltac:(lia) ltac:(lia) H5) as Hrecent.
  pose proof (listBookings_run byCreatedAtDesc u None None None db 1 10
                eq_refl eq_refl ltac:(lia) ltac:(lia) H10) as Hstats.
  cbv zeta in Hrecent, Hstats. rewrite Hfound in Hrecent, Hstats.
  change (Z.to_nat ((1 - 1) * 5)) with 0%nat in Hrecent.
  change (Z.to_nat ((1 - 1) * 10)) with 0%nat in Hstats.
  change (Z.to_nat 5) with 5%nat in Hrecent.
  change (Z.to_nat 10) with 10%nat in Hstats.
  rewrite drop_0 in Hrecent, Hstats.
  unfold fetchUserData. rewrite Hrecent, Hstats. split.
  - intros (b & Hb & Hm).
    destruct (forallb (serializes db) (take 10 (byCreatedAtDesc mine))) eqn:E.
    { destruct Hm. by eapply forallb_serializes. }
    by destruct (forallb (serializes db) (take 5 (byCreatedAtDesc mine))).
  - intros Hgone.
    assert (Hgone5 : ∀ b, b ∈ take 5 (byCreatedAtDesc mine) →
                          movies db !! movie b = None).
    { intros b Hb. apply Hgone.
      replace (take 5 (byCreatedAtDesc mine))
        with (take 5 (take 10 (byCreatedAtDesc mine))) in Hb
        by (by rewrite take_take).
      by apply subseteq_take in Hb. }
    apply forallb_serializes in Hgone, Hgone5. rewrite Hgone, Hgone5.
    exists (take 5 (byCreatedAtDesc mine)),
           (statsOf (take 10 (byCreatedAtDesc mine))).
    split_and!.
    + done.
    + done.
    + by rewrite length_take, Hlen.
    + unfold statsOf, totalBookings. by rewrite length_take, Hlen.
    + done.
    + apply length_filter.
Qed.
End Listing.


(** ** The cancellation window and the time label *)

Section Window.
Variable tz : Z.

Lemma split_no_sep (sep : ascii) (s : string) :
  sep ∉ list_ascii_of_string s → JS.split sep s = [s].
Proof.
  induction s as [|c s IH]; intros Hs; [done|]. simpl in *.
  apply not_elem_of_cons in Hs as [Hc Hs].
  destruct (Ascii.eqb_spec c sep) as [->|_]; [done|]. by rewrite IH.
Qed.

Lemma showtimeDateTime_no_colon (b : Booking) :
  ":"%char ∉ list_ascii_of_string (time (showtime b)) →
  showtimeDateTime tz b = None.
Proof.
  intros Hs. unfold showtimeDateTime. rewrite (split_no_sep _ _ Hs). simpl.
  unfold JS.setHours, JS.MakeTime.
  by destruct (JS.finite (JS.parseInt (time (showtime b)))).
Qed.

(** X20: the cancellation window against the time label and the clock.
    For an active booking that passes the schema, a caller who owns it
    (or an admin) and a reason of 200 characters at most after trimming:
    when the label holds no ':' the showtime moment is an Invalid Date
    and the cancellation is accepted at every time of the clock;
    when the label gives a moment [T], the cancellation is refused from
    two hours before [T] on, and so at every time after the show, and is
    accepted before; [T] depends on the stored date through its local
    calendar day only. *)
Theorem X20_window_and_label now u bid reason db b :
  bookings db !! bid = Some b → authorized u b → activeStatus b →
  validateBooking b = true → validReason reason →
  (":"%char ∉ list_ascii_of_string (time (showtime b)) →
   res_status (cancelBooking tz now u bid reason db).1 = 200)
  ∧ (∀ T, showtimeDateTime tz b = Some T →
       (T - 2 * JS.msPerHour < now →
        cancelBooking tz now u bid reason db
        = (CancellationWindowExpired, []))
       ∧ (now <= T - 2 * JS.msPerHour →
          res_status (cancelBooking tz now u bid reason db).1 = 200)
       ∧ ∀ b', time (showtime b') = time (showtime b) →
               JS.toDateString tz (date (showtime b'))
               = JS.toDateString tz (date (showtime b)) →
               showtimeDateTime tz b' = Some T).
Proof.
  intros Hb Hu Ha Hv Hr. split.
  - intros Hs. apply showtimeDateTime_no_colon in Hs.
    by rewrite (cancelBooking_ok tz now u bid reason db b Hb Hu Ha Hv Hr
                  (withinWindow_None tz now b Hs)).
  - intros T HT. split_and!.
    + intros Hlt.
      assert (Hw : withinWindow tz now b = true)
        by (apply (withinWindow_Some tz now b T HT); lia).
      unfold cancelBooking. unfold validReason in Hr. rewrite Hr. simpl.
      rewrite Hb.
      rewrite (proj2 (authorized_guard u b) Hu).
      apply activeStatus_guard in Ha as [Hc1 Hc2].
      rewrite !bool_decide_eq_false_2 by done. by rewrite Hw.
    + intros Hle.
      assert (Hw : withinWindow tz now b = false).
      { destruct (withinWindow tz now b) eqn:Hw; [|done].
        apply (withinWindow_Some tz now b T HT) in Hw. lia. }
      by rewrite (cancelBooking_ok tz now u bid reason db b Hb Hu Ha Hv Hr Hw).
    + intros b' Ht Hd. unfold showtimeDateTime in *. rewrite Ht.
      unfold JS.setHours in *. unfold JS.toDateString in Hd. by rewrite Hd.
Qed.
End Window.

(** ** The movie context of the client *)

Section Context.
Import MovieContext.

Lemma reducer_currentMovie (s : State) (a : Action) :
  currentMovie (movieReducer s a)
  = match a with FETCH_MOVIE_SUCCESS m => Some m | _ => currentMovie s end.
Proof. by destruct a. Qed.

(** X18: the movie reducer over any sequence of dispatched actions, in
    any interleaving.  The current movie is never cleared: it is absent
    at the end exactly when it was absent at the start and no
    FETCH_MOVIE_SUCCESS was dispatched.  The filters change with
    SET_FILTERS and CLEAR_FILTERS only, the movie list and the pagination
    with FETCH_MOVIES_SUCCESS only.  The loading flag is raised by
    FETCH_MOVIES_START only, and an error message comes from a
    FETCH_MOVIES_FAILURE only. *)
Theorem X18_reducer_traces (acts : list Action) (s : State) :
  let s' := foldl movieReducer s acts in
  (currentMovie s' = None
   ↔ currentMovie s = None ∧ ∀ m, FETCH_MOVIE_SUCCESS m ∉ acts)
  ∧ ((∀ p, SET_FILTERS p ∉ acts) → CLEAR_FILTERS ∉ acts →
     filters s' = filters s)
  ∧ ((∀ ms pg, FETCH_MOVIES_SUCCESS ms pg ∉ acts) →
     movies s' = movies s ∧ pagination s' = pagination s)
  ∧ (loading s' = true → loading s = true ∨ FETCH_MOVIES_START ∈ acts)
  ∧ (∀ msg, error s' = Some msg →
       error s = Some msg ∨ FETCH_MOVIES_FAILURE msg ∈ acts).
Proof.
  revert s. induction acts as [|a acts IH]; intros s; simpl.
  - split_and!; try tauto.
    + split; [intros H; split; [done|]; intros m Hm; by apply elem_of_nil in Hm
             | tauto].
  - destruct (IH (movieReducer s a)) as (IH1 & IH2 & IH3 & IH4 & IH5).
    split_and!.
    + rewrite IH1, reducer_currentMovie. split.
      * intros [Hc Hn]. destruct a; try discriminate Hc;
          (split; [done|]; intros m Hm;
           apply elem_of_cons in Hm as [Hm|Hm]; [discriminate Hm|];
           by apply (Hn m)).
      * intros [Hc Hn]. split.
        -- destruct a; try done. destruct (Hn payload). apply list_elem_of_here.
        -- intros m Hm. apply (Hn m). by apply list_elem_of_further.
    + intros Hset Hclear. rewrite IH2.
      * destruct a; try done.
        -- destruct (Hset payload). apply list_elem_of_here.
        -- destruct Hclear. apply list_elem_of_here.
      * intros p Hp. apply (Hset p). by apply list_elem_of_further.
      * intros Hp. apply Hclear. by apply list_elem_of_further.
    + intros Hms. destruct IH3 as [-> ->].
      * intros ms pg Hp. apply (Hms ms pg). by apply list_elem_of_further.
      * destruct a; try done.
        destruct (Hms payload_movies payload_pagination).
        apply list_elem_of_here.
    + intros Hl. destruct (IH4 Hl) as [Hl'|Hin].
      * destruct a; simpl in Hl'; try discriminate Hl'; try (by left).
        right. apply list_elem_of_here.
      * right. by apply list_elem_of_further.
    + intros msg He. destruct (IH5 msg He) as [He'|Hin].
      * destruct a; simpl in He'; try discriminate He'; try (by left).
        right. injection He' as ->. apply list_elem_of_here.
      * right. by apply list_elem_of_further.
Qed.

(** X19: the movie page after [fetchMovie].  While the request is in
    flight the page shows the spinner.  After a failure the page shows
    the movie that was fetched before, when there is one, with the
    message of the failure in [error], or 'Failed to fetch movie' when
    the response carries no message or an empty one; the not-found
    notice appears only when no movie was fetched before and the request
    failed.  After a success the page shows the fetched movie with
    exactly its active showtimes, in their order. *)
Theorem X19_movie_page_after_fetch (state : State) :
  MovieDetail (movieReducer state FETCH_MOVIES_START) = Spinner
  ∧ (∀ old message,
       currentMovie state = Some old →
       let state' := fetchMovie (inr message) state in
       MovieDetail state'
       = Detail old (filter (λ st, st_isActive st = true) (showtimes old))
       ∧ error state'
         = Some (match message with
                 | Some "" | None => "Failed to fetch movie"
                 | Some text => text
                 end))
  ∧ (∀ outcome,
       MovieDetail (fetchMovie outcome state) = NotFound
       ↔ currentMovie state = None ∧ ∃ message, outcome = inr message)
  ∧ (∀ movie, ∃ active,
       MovieDetail (fetchMovie (inl movie) state) = Detail movie active
       ∧ active `sublist_of` showtimes movie
       ∧ ∀ st, st ∈ active ↔ st ∈ showtimes movie ∧ st_isActive st = true).
Proof.
  split_and!.
  - done.
  - intros old message Hold. unfold fetchMovie, MovieDetail. simpl.
    rewrite Hold. split; [done|]. f_equal. unfold reasonOr.
    destruct message as [[|c text]|]; try done.
  - intros [movie|message]; unfold fetchMovie, MovieDetail; simpl.
    + split; [done|]. by intros [_ [msg ?]].
    + destruct (currentMovie state); split; try done.
      * by intros [? _].
      * intros _. split; [done|]. by exists message.
  - intros movie. eexists. split; [reflexivity|]. split.
    + apply sublist_filter.
    + intros st. rewrite list_elem_of_filter. tauto.
Qed.
End Context.


(** * Concrete runs

    The statements above applied to the scenarios: a UTC server, one
    movie with one showtime at 19:30, Alice, Bob and an admin, and
    stores that hold bookings of theirs. *)

Import Scenario.

Ltac by_running := vm_compute; reflexivity.

Lemma afterPair_booking : bookings afterPair !! 0%nat = Some ticket.
Proof. reflexivity. Qed.

Lemma afterPair_movie : movies afterPair !! 1%nat = Some (film 10 8).
Proof. by_running. Qed.

Lemma ticket_valid : validateBooking ticket = true.
Proof. by_running. Qed.

Lemma reason_None_valid : validReason None.
Proof. reflexivity. Qed.

Lemma afterPair_exclusive : exclusive (bookings afterPair).
Proof.
  intros i j b1 b2 x Hi Hj Hne. simpl in Hi, Hj.
  apply list_lookup_singleton_Some in Hi as [-> _].
  apply list_lookup_singleton_Some in Hj as [-> _]. done.
Qed.


Lemma store_bounds total avail :
  0 <= avail <= total → dbSeatBounds (store total avail).
Proof.
  intros Hb i m st Hm Hst. unfold store in Hm. simpl in Hm.
  apply lookup_singleton_Some in Hm as [_ <-]. simpl in Hst.
  apply list_elem_of_singleton in Hst as ->. exact Hb.
Qed.


Lemma tapeA_in_range : Forall unitInterval tapeA.
Proof. repeat constructor; vm_compute; congruence. Qed.

Lemma tapeB_in_range : Forall unitInterval tapeB.
Proof. repeat constructor; vm_compute; congruence. Qed.

Lemma afterPair_open : withinWindow tz threeHoursBefore ticket = false.
Proof. by_running. Qed.

Lemma afterPair_moment : showtimeDateTime tz ticket = Some showMoment.
Proof. by_running. Qed.


Lemma overlapA_refused :
  createBooking tz tapeB bob overlapA afterPair
  = Some (SeatConflict ["A2"], []).
Proof. by_running. Qed.



Lemma store_movie total avail :
  movies (store total avail) !! 1%nat = Some (film total avail).
Proof. unfold store. simpl. apply lookup_singleton_eq. Qed.

Lemma store_found :
  findActiveShowtime tz (film 10 10) day "19:30" = Some (0%nat, hall 10 10).
Proof. by_running. Qed.

Lemma tapeA_code : preSave tapeA [] = Some "ABS9MJHG".
Proof. by_running. Qed.

(** C2 on Alice's request for A1 and A2 in an empty hall of ten: every
    guard passes, the document reaches [Booking.create] without a code
    and is rejected; the route answers 500 and nothing is written.  The
    same document under a code of its own is stored, with the code of
    the hook. *)
Lemma C2_witness :
  let doc code :=
    mkBooking 7 1 (mkShowtimeRef day "19:30") ["A1"; "A2"] 2
      ((25 # 2) * inject_Z 2)%Q pending cash pay_pending code
      None None None None in
  createBooking tz tapeA alice pairA (store 10 10) = Some (CreateFailed, [])
  ∧ commit [] (store 10 10) = store 10 10
  ∧ Booking_create tapeA [] (doc "") = Some Rejected
  ∧ Booking_create tapeA [] (doc "TEMPCODE") = Some (Stored (doc "ABS9MJHG")).
Proof.
  destruct (C2_create_is_refused tz tapeA alice pairA (store 10 10)
              (film 10 10) 0 (hall 10 10)
              eq_refl (store_movie 10 10) store_found
              ltac:(vm_compute; discriminate) ltac:(vm_compute; discriminate)
              eq_refl)
    as (Hres & _ & Hdb & Hrej & Hstored & _).
  intros doc. split_and!.
  - exact Hres.
  - exact Hdb.
  - exact Hrej.
  - exact (Hstored "TEMPCODE" "ABS9MJHG" ltac:(discriminate) tapeA_code).
Defined.


Lemma rebooked_movie : movies rebooked !! 1%nat = Some (film 10 9).
Proof. by_running. Qed.

Lemma rebooked_found :
  findActiveShowtime tz (film 10 9) (day + JS.msPerHour) "19:30"
  = Some (0%nat, hall 10 9).
Proof. by_running. Qed.

(** C4 on the scenario: Bob holds A1 on the stored timestamp, Alice asks
    for A1 one hour later on the same day.  Her request finds the same
    showtime entry, its scan does not see Bob's booking, no guard
    refuses it, and the route answers 500. *)
Lemma C4_witness :
  findActiveShowtime tz (film 10 9) day "19:30" = Some (0%nat, hall 10 9)
  ∧ (bobA1
     ∉ existingBookings (bookings rebooked) 1 (day + JS.msPerHour) "19:30")
  ∧ ("A1" ∉ bookedSeats (bookings rebooked) 1 (day + JS.msPerHour) "19:30")
  ∧ createBooking tz tapeA alice singleA1Later rebooked
    = Some (CreateFailed, [])
  ∧ step tz (ReqCreate tapeA alice singleA1Later) rebooked = Some rebooked.
Proof.
  destruct (C4_same_day_other_timestamp_not_seen tz tapeA alice singleA1Later
              rebooked bobA1 (film 10 9) 0 (hall 10 9) "A1"
              (list_elem_of_further _ _ _ (list_elem_of_here _ _))
              (or_introl eq_refl) eq_refl eq_refl eq_refl
              ltac:(vm_compute; discriminate)
              (list_elem_of_here _ _) (list_elem_of_here _ _)
              rebooked_movie rebooked_found)
    as (Hsame & Hunseen & _ & Hpass).
  destruct (Hpass eq_refl ltac:(vm_compute; discriminate) eq_refl)
    as (Hfree & Hres).
  split_and!.
  - exact Hsame.
  - exact Hunseen.
  - exact Hfree.
  - exact Hres.
  - unfold step. cbn [handle]. rewrite Hres. reflexivity.
Defined.

(** C5 on Alice's booking: refused one millisecond inside the window,
    admitted at exactly two hours, for Alice and for the admin; the
    moment of the show is 19:30 on the day of the stored date. *)
Lemma C5_witness :
  cancelBooking tz justInside alice 0 None afterPair
  = (CancellationWindowExpired, [])
  ∧ cancelBooking tz justInside root 0 None afterPair
    = (CancellationWindowExpired, [])
  ∧ res_status (cancelBooking tz twoHoursBefore root 0 None afterPair).1 = 200
  ∧ showMoment
    = JS.Day (day + tz) * JS.msPerDay + 19 * JS.msPerHour
      + 30 * JS.msPerMinute - tz.
Proof.
  pose proof (C5_window_boundary tz justInside alice 0 None afterPair ticket
                showMoment afterPair_booking (or_introl eq_refl)
                (or_introl eq_refl) ticket_valid reason_None_valid
                afterPair_moment) as (Hin & _ & Hmoment).
  pose proof (C5_window_boundary tz justInside root 0 None afterPair ticket
                showMoment afterPair_booking (or_introl eq_refl)
                (or_intror eq_refl) ticket_valid reason_None_valid
                afterPair_moment) as [Hin' _].
  pose proof (C5_window_boundary tz twoHoursBefore root 0 None afterPair ticket
                showMoment afterPair_booking (or_introl eq_refl)
                (or_intror eq_refl) ticket_valid reason_None_valid
                afterPair_moment) as (_ & Hout & _).
  split_and!.
  - apply Hin. reflexivity.
  - apply Hin'. reflexivity.
  - destruct Hout as (b' & -> & _); [vm_compute; discriminate | reflexivity].
  - apply (Hmoment "19" "30" [] 19 30); try by_running;
      vm_compute; discriminate.
Defined.




Lemma afterPair_match :
  findShowtime tz (film 10 8) day "19:30" = Some (0%nat, hall 10 8).
Proof. by_running. Qed.



(** C8 on Bob's refused request. *)
Lemma C8_witness :
  ∃ res ws,
    createBooking tz tapeB bob overlapA afterPair = Some (res, ws)
    ∧ res = SeatConflict ["A2"] ∧ ws = [] ∧ commit ws afterPair = afterPair.
Proof.
  destruct (C8_create_failure_atomic tz tapeB bob overlapA afterPair _ _
              overlapA_refused) as (Hfail & _ & _).
  destruct Hfail as [Hws Hdb]; [vm_compute; discriminate|].
  eexists _, _. split; [exact overlapA_refused|]. done.
Defined.

Lemma tapeAB_in_range : Forall unitInterval (tapeA ++ tapeB).
Proof. apply Forall_app. split; [exact tapeA_in_range | exact tapeB_in_range]. Qed.

Lemma tapeAB_code : preSave (tapeA ++ tapeB) ([] ++ [ticket]) = Some "Z0123456".
Proof. by_running. Qed.

(** C9 on two documents: the hook gives the first the code that tape A
    spells; on tape A followed by tape B it finds that code taken, draws
    again and gives the second the code that tape B spells. *)
Lemma C9_witness :
  ∃ bs',
    created [] bs'
    ∧ bookingCode <$> bs' = ["ABS9MJHG"; "Z0123456"]
    ∧ NoDup (bookingCode <$> bs')
    ∧ Forall (λ b, wellFormedCode (bookingCode b)) bs'
    ∧ preSave (tapeA ++ tapeB) [ticket] = Some "Z0123456"
    ∧ preSave tapeA [ticket] = None.
Proof.
  assert (Hc : created []
                 (([] ++ [set_bookingCode "ABS9MJHG" ticket])
                  ++ [set_bookingCode "Z0123456" bobA1])).
  { eapply created_next; [|exact tapeAB_in_range | exact tapeAB_code].
    eapply created_next; [apply created_none | exact tapeA_in_range
                         | exact tapeA_code]. }
  destruct (C9_booking_codes tz [] _ Hc (NoDup_nil_2 (A:=string)))
    as ((new & E & Hnd & Hwf) & _ & _ & Hloop & _).
  eexists. split; [exact Hc|]. split_and!.
  - reflexivity.
  - exact Hnd.
  - simpl in E. subst new. exact Hwf.
  - exact tapeAB_code.
  - rewrite (Hloop tapeA [ticket]). reflexivity.
Defined.

(** C10 on a request for three seat labels with quantity 1: in an empty
    hall of ten the validators pass it, no guard refuses it, and the
    route answers 500 and stores nothing; in the hall of one seat that
    Alice holds it is refused for the capacity. *)
Lemma C10_witness :
  validCreate threeForOne = true
  ∧ createBooking tz tapeA alice threeForOne (store 10 10)
    = Some (CreateFailed, [])
  ∧ step tz (ReqCreate tapeA alice threeForOne) (store 10 10)
    = Some (store 10 10)
  ∧ createBooking tz tapeA bob threeForOne soldOut
    = Some (CapacityExceeded, []).
Proof.
  destruct (C10_quantity_independent_of_seats tz tapeA alice threeForOne
              (store 10 10) (film 10 10) 0 (hall 10 10)
              ltac:(discriminate) ltac:(vm_compute; discriminate)
              ltac:(discriminate) eq_refl (store_movie 10 10) store_found)
    as (Hvalid & _ & _ & Hpass & _).
  destruct (C10_quantity_independent_of_seats tz tapeA bob threeForOne
              soldOut (film 1 0) 0 (hall 1 0)
              ltac:(discriminate) ltac:(vm_compute; discriminate)
              ltac:(discriminate) eq_refl ltac:(by_running)
              ltac:(by_running))
    as (_ & Hfull & _).
  pose proof (Hpass ltac:(vm_compute; discriminate) eq_refl) as Hres.
  split_and!.
  - exact Hvalid.
  - exact Hres.
  - unfold step. cbn [handle]. rewrite Hres. reflexivity.
  - apply Hfull. reflexivity.
Defined.

(** A time label without a ':' field gives no showtime moment, and the
    window guard then lets every cancellation through. *)
Example label_without_minutes :
  showtimeDateTime tz
    (mkBooking 7 1 (mkShowtimeRef day "7pm") ["A1"] 1 (25 # 2) pending cash
       pay_pending "ABS9MJHG" None None None None) = None.
Proof. by_running. Qed.

(** ** The further properties on the scenarios *)

Import Programme.

Lemma store_unique total avail : dbUniqueShowtimes tz (store total avail).
Proof.
  intros mid m Hm. unfold store in Hm. simpl in Hm.
  apply lookup_singleton_Some in Hm as [_ <-].
  intros i j st1 st2 Hi Hj _. simpl in Hi, Hj.
  apply list_lookup_singleton_Some in Hi as [-> _].
  by apply list_lookup_singleton_Some in Hj as [-> _].
Qed.


Lemma afterPair_conserved : conserved tz afterPair.
Proof.
  intros mid m st Hm Hst. unfold afterPair in Hm. simpl in Hm.
  apply lookup_singleton_Some in Hm as [<- <-]. simpl in Hst.
  apply list_elem_of_singleton in Hst as ->. by_running.
Qed.

(** X1 on the scenario: a showtime on the next day at 21:00 is added to
    the movie, found from any moment of that day, and refused a second
    time. *)
Lemma X1_witness :
  addShowtime tz 1 5 nextDay "21:00" 10 50 (store 10 10)
  = (respond 201 "Showtime added successfully", [SaveMovie 1 twoShows])
  ∧ findActiveShowtime tz twoShows (nextDay + JS.msPerHour) "21:00"
    = Some (1%nat, late)
  ∧ addShowtime tz 1 6 (nextDay + JS.msPerHour) "21:00" 12 40 programme
    = (respond 400 "Showtime already exists for this date and time", []).
Proof.
  destruct (X1_addShowtime_effect tz (store 10 10) 1 5 nextDay "21:00" 10 50
              (film 10 10) ltac:(discriminate) ltac:(discriminate) ltac:(lia)
              eq_refl) as [_ Hnew].
  destruct (Hnew eq_refl) as [Hadd Hfound].
  destruct (Hfound (nextDay + JS.msPerHour) eq_refl) as [Hfind Hagain].
  split_and!.
  - exact Hadd.
  - exact Hfind.
  - exact (Hagain 6%nat 12%Q 40 ltac:(discriminate) ltac:(lia)).
Defined.

(** X2 on the scenario: the store keeps its showtimes distinct when the
    late showtime is added. *)
Lemma X2_witness :
  step tz (ReqAddShowtime 1 5 nextDay "21:00" 10 50) (store 10 10)
  = Some programme
  ∧ dbUniqueShowtimes tz programme.
Proof.
  assert (Hstep : step tz (ReqAddShowtime 1 5 nextDay "21:00" 10 50)
                    (store 10 10) = Some programme) by by_running.
  split; [exact Hstep|].
  refine (X2_unique_showtimes_kept tz _ (store 10 10) programme
            (store_unique 10 10) _ Hstep).
  intros mid sid body E. discriminate E.
Defined.

(** X3 on the scenario: the late showtime is moved onto the day and label
    of the one at 19:30, and the update is accepted. *)
Lemma X3_witness :
  ∃ m',
    updateShowtime 1 5 [upd_date day; upd_time "19:30"] programme
    = (respond 200 "Showtime updated successfully", [SaveMovie 1 m'])
    ∧ movies (commit [SaveMovie 1 m'] programme) !! 1%nat = Some m'
    ∧ ¬ uniqueShowtimes tz m'.
Proof.
  exact (X3_updateShowtime_duplicates tz programme 1 5 twoShows 0 1
           (hall 10 10) late eq_refl eq_refl eq_refl ltac:(lia)
           ltac:(discriminate)).
Defined.

(** X4 on the scenario: the late showtime is deleted, once. *)
Lemma X4_witness :
  deleteShowtime 1 5 programme
  = (respond 200 "Showtime deleted successfully", [SaveMovie 1 (film 10 10)])
  ∧ deleteShowtime 1 5 (store 10 10) = (respond 404 "Showtime not found", []).
Proof.
  destruct (X4_deleteShowtime_effect programme 1 5 twoShows 1 late
              eq_refl eq_refl) as (Hdel & _ & _ & _ & Hagain).
  split; [exact Hdel|]. apply Hagain. simpl.
  apply NoDup_cons. split; [|apply NoDup_singleton].
  intros Hin. apply list_elem_of_singleton in Hin. discriminate Hin.
Defined.

(** X5 on the scenario: adding the late showtime and deleting it gives
    the store back. *)
Lemma X5_witness :
  ∃ res1 db1 res2 db2,
    step tz (ReqAddShowtime 1 5 nextDay "21:00" 10 50) (store 10 10) = Some db1
    ∧ (addShowtime tz 1 5 nextDay "21:00" 10 50 (store 10 10)).1 = res1
    ∧ res_status res1 = 201
    ∧ step tz (ReqDeleteShowtime 1 5) db1 = Some db2
    ∧ (deleteShowtime 1 5 db1).1 = res2 ∧ res_status res2 = 200
    ∧ db2 = store 10 10.
Proof.
  refine (X5_add_then_delete tz (store 10 10) 1 5 nextDay "21:00" 10 50
            (film 10 10) ltac:(discriminate) ltac:(discriminate) ltac:(lia)
            eq_refl eq_refl _).
  simpl. intros Hin. apply list_elem_of_singleton in Hin. discriminate Hin.
Defined.





(** X8 on the scenario: after Alice's cancellation her seats are free. *)
Lemma X8_witness :
  let db' :=
    commit (cancelBooking tz threeHoursBefore alice 0 None afterPair).2
      afterPair in
  ("A1" ∉ bookedSeats (bookings db') 1 day "19:30")
  ∧ conflictingSeats ["A2"] (bookedSeats (bookings db') 1 day "19:30") = [].
Proof.
  destruct (X8_cancel_frees_seats tz threeHoursBefore alice 0 None afterPair
              ticket afterPair_exclusive afterPair_booking
              (or_introl eq_refl) (or_introl eq_refl)
              ticket_valid reason_None_valid afterPair_open)
    as (_ & Hfree & Hnone).
  split.
  - apply (Hfree "A1"). apply list_elem_of_here.
  - apply (Hnone ["A2"]). intros x Hx.
    apply list_elem_of_singleton in Hx as ->.
    apply list_elem_of_further, list_elem_of_here.
Defined.


(** X10 on the scenario: the admin cancels Alice's booking through the
    status route; no booking holds a seat, and the counter stays at 8 of
    10. *)
Lemma X10_witness :
  let db' :=
    commit (updateBookingStatus threeHoursBefore root 0 cancelled None
              afterPair).2 afterPair in
  res_status
    (updateBookingStatus threeHoursBefore root 0 cancelled None afterPair).1
  = 200
  ∧ movies db' = movies afterPair
  ∧ availableSeats (hall 10 8) + reserved tz (bookings db') 1 (hall 10 8)
    = totalSeats (hall 10 8) - 2.
Proof.
  exact (X10_admin_status_drift tz threeHoursBefore root 0 cancelled None
           afterPair ticket (film 10 8) 0 (hall 10 8)
           afterPair_conserved afterPair_booking ticket_valid
           ltac:(intros _; vm_compute; lia) afterPair_movie afterPair_match).
Defined.

(** X11 on the scenario: the request is answered alike for the movie
    taken out of the listing. *)
Lemma X11_witness :
  fst <$> createBooking tz tapeA alice pairA
            (set_movies
               (<[1%nat := mkMovie "Metropolis" "metropolis.jpg"
                              [hall 10 10] false]> (movies (store 10 10)))
               (store 10 10))
  = fst <$> createBooking tz tapeA alice pairA (store 10 10).
Proof.
  exact (X11_create_ignores_movie_flag tz tapeA alice pairA (store 10 10)
           (film 10 10) false (store_movie 10 10)).
Defined.

Lemma ticket_codes (ms : gmap nat Movie) : NoDup (codes (mkDB ms [ticket])).
Proof. apply NoDup_singleton. Qed.

Lemma ticket_movie_stored : movies afterPair !! movie ticket ≠ None.
Proof. intros E. vm_compute in E. discriminate E. Qed.

Lemma alice_known : user ticket ∈ users.
Proof. vm_compute. set_solver. Qed.

(** X12 on the scenarios: while the movie is in the store Alice's read of
    her booking by its code is answered 500; once the movie is gone she
    gets the booking; Bob is refused by its id. *)
Lemma X12_witness :
  getBookingByCode users alice "ABS9MJHG" afterPair
  = respond 500 "Server error while fetching booking"
  ∧ getBookingByCode users alice "ABS9MJHG" orphaned
    = mkResponse 200 "" (Some ticket)
  ∧ getBooking users root 0 orphaned = mkResponse 200 "" (Some ticket)
  ∧ getBooking users bob 0 afterPair
    = respond 403 "Not authorized to view this booking".
Proof.
  split_and!.
  - destruct (X12_stored_booking_is_retrievable users afterPair 0 ticket
                (ticket_codes _) afterPair_booking alice_known alice)
      as (_ & Hfails & _).
    refine (proj1 (Hfails (or_introl eq_refl) _)).
    exact ticket_movie_stored.
  - destruct (X12_stored_booking_is_retrievable users orphaned 0 ticket
                (ticket_codes _) eq_refl alice_known alice)
      as (Hyes & _).
    exact (proj1 (Hyes (or_introl eq_refl) eq_refl)).
  - destruct (X12_stored_booking_is_retrievable users orphaned 0 ticket
                (ticket_codes _) eq_refl alice_known root)
      as (Hyes & _).
    exact (proj2 (Hyes (or_intror eq_refl) eq_refl)).
  - destruct (X12_stored_booking_is_retrievable users afterPair 0 ticket
                (ticket_codes _) afterPair_booking alice_known bob)
      as (_ & _ & Hno).
    refine (proj2 (Hno _)). intros [E|E]; discriminate E.
Defined.

(** X14 on the scenario: the movie is deleted while Alice holds her
    booking; the booking stays, Bob cannot book, and Alice's cancellation
    writes her booking only. *)
Lemma X14_witness :
  let db' := (deleteMovie 1 afterPair).2 in
  (deleteMovie 1 afterPair).1 = respond 200 "Movie deleted successfully"
  ∧ bookings db' = bookings afterPair
  ∧ createBooking tz tapeB bob overlapA db' = Some (MovieNotFound, [])
  ∧ (cancelBooking tz threeHoursBefore alice 0 None db').2
    = [SaveBooking 0
         (markCancelled threeHoursBefore alice "Cancelled by user" ticket)].
Proof.
  destruct (X14_deleteMovie_orphans_bookings tz afterPair 1 (film 10 8)
              afterPair_movie) as (Hres & Hb & _ & _ & Hcreate & Hcancel).
  split_and!.
  - exact Hres.
  - exact Hb.
  - exact (Hcreate tapeB bob overlapA eq_refl eq_refl).
  - by rewrite (Hcancel threeHoursBefore alice 0%nat None ticket
                  afterPair_booking eq_refl (or_introl eq_refl)
                  (or_introl eq_refl) ticket_valid reason_None_valid
                  afterPair_open).
Defined.

Lemma newestFirst_perm (l : list Booking) : newestFirst l ≡ₚ l.
Proof. apply reverse_Permutation. Qed.

Lemma limit_five : queryInt (Some "5") 10 = JS.Int 5.
Proof. by_running. Qed.

(** X15 on the scenarios: Alice lists her pending bookings, five a page.
    While the movie of her booking is in the store the route answers
    500; once it is gone she gets the page. *)
Lemma X15_witness :
  listBookings newestFirst alice None (Some "5") (Some "pending") afterPair
  = Some (inl (respond 500 "Server error while fetching bookings"))
  ∧ listBookings newestFirst alice None (Some "5") (Some "pending") orphaned
    = Some (inr (mkBookingList [ticket] (paginationOf 1 5 1))).
Proof.
  split.
  - destruct (X15_listBookings_page newestFirst alice None (Some "5")
                (Some "pending") afterPair 1 5 newestFirst_perm eq_refl
                limit_five ltac:(lia) ltac:(lia) ltac:(by_running))
      as (_ & _ & _ & Hfails & _).
    apply Hfails. exists ticket. split.
    + apply list_elem_of_here.
    + exact ticket_movie_stored.
  - destruct (X15_listBookings_page newestFirst alice None (Some "5")
                (Some "pending") orphaned 1 5 newestFirst_perm eq_refl
                limit_five ltac:(lia) ltac:(lia) ltac:(by_running))
      as (_ & _ & Hpage & _).
    apply Hpage. intros b Hb.
    apply list_elem_of_singleton in Hb as ->. reflexivity.
Defined.

(** X16 on twelve documents, five a page: three pages, and page 2 has a
    next page and a previous one. *)
Lemma X16_witness :
  totalPages (paginationOf 2 5 12) = 3
  ∧ hasNextPage (paginationOf 2 5 12) = true
  ∧ hasPrevPage (paginationOf 2 5 12) = true.
Proof.
  destruct (X16_pagination_flags twelve 2 5 ltac:(lia) ltac:(lia))
    as (Hpages & _ & Hnext & _ & Hprev & _).
  change (Z.of_nat (length twelve)) with 12 in *.
  assert (Htp : totalPages (paginationOf 2 5 12) = 3).
  { pose proof (Hpages 3) as H3. pose proof (Hpages 2) as H2. lia. }
  split_and!.
  - exact Htp.
  - apply Hnext. lia.
  - apply Hprev. lia.
Defined.

(** X17 on the scenarios: Alice's dashboard stays empty while the movie
    of her booking is in the store; once it is gone it counts her one
    booking. *)
Lemma X17_witness :
  fetchUserData newestFirst alice afterPair = None
  ∧ ∃ recent stats,
      fetchUserData newestFirst alice orphaned = Some (recent, stats)
      ∧ recent = [ticket]
      ∧ totalBookings stats = 1%nat
      ∧ activeBookings stats = 1%nat.
Proof.
  split.
  - destruct (X17_dashboard_stats_first_page newestFirst alice afterPair
                newestFirst_perm) as [Hfails _].
    apply Hfails. exists ticket. split.
    + apply list_elem_of_here.
    + exact ticket_movie_stored.
  - destruct (X17_dashboard_stats_first_page newestFirst alice orphaned
                newestFirst_perm) as [_ Hstats].
    destruct Hstats as (recent & stats & Hf & Hrecent & _ & Htotal & Hactive & _).
    { intros b Hb. apply list_elem_of_singleton in Hb as ->. reflexivity. }
    exists recent, stats. split_and!.
    + exact Hf.
    + exact Hrecent.
    + exact Htotal.
    + exact Hactive.
Defined.

(** X20 on the scenario: Alice cannot cancel after the show has begun;
    the moment of the show is the same for a stored date late on its
    day. *)
Lemma X20_witness :
  cancelBooking tz (showMoment + 1) alice 0 None afterPair
  = (CancellationWindowExpired, [])
  ∧ showtimeDateTime tz
      (mkBooking 8 1 (mkShowtimeRef (day + 23 * JS.msPerHour) "19:30") ["A1"]
         1 (25 # 2) pending cash pay_pending "Z0123456" None None None None)
    = Some showMoment.
Proof.
  destruct (X20_window_and_label tz (showMoment + 1) alice 0 None afterPair
              ticket afterPair_booking (or_introl eq_refl)
              (or_introl eq_refl) ticket_valid reason_None_valid)
    as [_ Hmoment].
  destruct (Hmoment showMoment afterPair_moment) as (Hlate & _ & Hday).
  split.
  - apply Hlate. vm_compute. reflexivity.
  - apply Hday; reflexivity.
Defined.
